(** * intelliflow-core: contracts, helpers and the governance log

    A shallow embedding of [intelliflow_core/helpers.py],
    [intelliflow_core/contracts.py] and [intelliflow_core/governance_ui.py],
    and the properties of these modules stated by the specification. *)

From Stdlib Require Import ZArith QArith Qround Qabs Qpower Lqa Lia.
From Stdlib Require Import String Ascii List.
From Stdlib Require Import PrimFloat SpecFloat FloatOps.
From stdpp Require Import gmap strings list fin_maps pretty.

Local Open Scope string_scope.
Local Open Scope Z_scope.

(** ** Python strings

    A [str] is a [string]; [len] is [String.length].  A slice [s[:stop]]
    follows Python's rule for a stop index: a negative stop counts from the
    end, and the index is then clamped to [0 .. len s]. *)

Module PyStr.

Definition len (s : string) : Z := Z.of_nat (String.length s).

(** [s[:n]] for [0 <= n]: the first [n] characters, all of [s] when it is
    shorter. *)
Fixpoint prefix (n : nat) (s : string) : string :=
  match n, s with
  | O, _ => EmptyString
  | S _, EmptyString => EmptyString
  | S n', String c s' => String c (prefix n' s')
  end.

(** The stop index of a slice, as [PySlice_AdjustIndices] computes it. *)
Definition adjust_stop (stop length : Z) : Z :=
  if stop <? 0 then
    (if stop + length <? 0 then 0 else stop + length)
  else
    (if length <? stop then length else stop).

(** [s[:stop]] *)
Definition slice_to (s : string) (stop : Z) : string :=
  prefix (Z.to_nat (adjust_stop stop (len s))) s.

(** [not s]: the truth value of a string is whether it is non-empty. *)
Definition is_empty (s : string) : bool :=
  match s with EmptyString => true | String _ _ => false end.

(** [s.upper()] on ASCII text: the letters [a]-[z] become [A]-[Z], every
    other character stays. *)
Definition upper_char (c : ascii) : ascii :=
  let n := nat_of_ascii c in
  if ((97 <=? n)%nat && (n <=? 122)%nat)%bool then ascii_of_nat (n - 32) else c.

Fixpoint upper (s : string) : string :=
  match s with
  | EmptyString => EmptyString
  | String c s' => String (upper_char c) (upper s')
  end.



End PyStr.

(** ** Python floats

    A [float] is an IEEE 754 binary64 value.  A finite value is carried by
    the rational it denotes (kept reduced, so that equal values are equal
    terms; the two signed zeros are one value, which [==], [<=] and [<]
    cannot tell apart).  Every operation returns the exact result rounded
    to the nearest representable value, ties to the even significand. *)

Module PyFloat.

Local Open Scope Q_scope.

(** The integer nearest to [x], a tie going to the even one. *)
Definition round_half_even (x : Q) : Z :=
  let f := Qfloor x in
  match Qcompare (x - inject_Z f) (1 # 2) with
  | Lt => f
  | Gt => (f + 1)%Z
  | Eq => if Z.even f then f else (f + 1)%Z
  end.

(** [floor (log2 |x|)] for [x] other than zero. *)
Definition binade (x : Q) : Z :=
  let k := (Z.log2 (Z.abs (Qnum x)) - Z.log2 (Zpos (Qden x)))%Z in
  if Qle_bool (2 ^ k) (Qabs x) then k else (k - 1)%Z.

(** binary64: 53 significant bits, the least quantum is [2^-1074], and a
    value is finite when it is below [2^1024]. *)
Definition prec : Z := 53.
Definition emin : Z := -1074.
Definition emax : Z := 1024.

(** The exponent of the unit in the last place at [x]. *)
Definition quantum_exp (x : Q) : Z :=
  Z.max (binade x - (prec - 1)) emin.

(** Rounding to nearest, exponent unbounded above. *)
Definition rnd (x : Q) : Q :=
  if Qeq_bool x 0 then 0
  else
    let q := quantum_exp x in
    inject_Z (round_half_even (x / 2 ^ q)) * 2 ^ q.

Inductive float : Type :=
| Finite (v : Q)
| Infinity (negative : bool)
| NaN.

Definition is_negative (x : Q) : bool := (Qnum x <? 0)%Z.

(** Rounding with overflow to an infinity. *)
Definition round_b64 (x : Q) : float :=
  let r := rnd x in
  if Qle_bool (2 ^ emax) (Qabs r) then Infinity (is_negative r)
  else Finite (Qred r).

(** The decimal literal [m e k], read to the nearest float: [0.00015] is
    [float_lit 15 (-5)]. *)
Definition float_lit (m k : Z) : float := round_b64 (inject_Z m * 10 ^ k).

(** [x * y] *)
Definition fmul (x y : float) : float :=
  match x, y with
  | NaN, _ | _, NaN => NaN
  | Finite a, Finite b => round_b64 (a * b)
  | Infinity s, Finite b | Finite b, Infinity s =>
      if Qeq_bool b 0 then NaN else Infinity (xorb s (is_negative b))
  | Infinity s, Infinity t => Infinity (xorb s t)
  end.

(** [x + y] *)
Definition fadd (x y : float) : float :=
  match x, y with
  | NaN, _ | _, NaN => NaN
  | Finite a, Finite b => round_b64 (a + b)
  | Infinity s, Finite _ | Finite _, Infinity s => Infinity s
  | Infinity s, Infinity t => if Bool.eqb s t then Infinity s else NaN
  end.

(** [x <= y] and [x < y]; a comparison with NaN is false. *)
Definition fle (x y : float) : bool :=
  match x, y with
  | NaN, _ | _, NaN => false
  | Finite a, Finite b => Qle_bool a b
  | Infinity s, Infinity t => implb t s
  | Infinity s, Finite _ => s
  | Finite _, Infinity t => negb t
  end.

Definition flt (x y : float) : bool :=
  match x, y with
  | NaN, _ | _, NaN => false
  | _, _ => negb (fle y x)
  end.

(** [x == y] *)
Definition feq (x y : float) : bool := fle x y && fle y x.

End PyFloat.

(** ** Hardware floats

    The kernel's binary64 floats read as values of the model, to test the
    model's arithmetic against the machine's. *)

Module Binary64.

Import PyFloat.
Local Open Scope Q_scope.

Definition of_spec (f : spec_float) : float :=
  match f with
  | S754_zero _ => Finite 0
  | S754_infinity s => Infinity s
  | S754_nan => NaN
  | S754_finite s m e =>
      Finite (Qred ((if s then - inject_Z (Zpos m) else inject_Z (Zpos m)) * 2 ^ e))
  end.

Definition of_prim (f : PrimFloat.float) : float := of_spec (Prim2SF f).

End Binary64.

(** ** Exceptions

    A call returns a value or raises. *)

(** The reason a field is rejected by schema validation. *)
Inductive error_type : Type :=
| missing
| string_type
| int_type
| float_type
| bool_type
| datetime_type
| enum_value
| dict_type
| greater_than_equal.

(** One line of a [ValidationError]: the field and what is wrong with it. *)
Definition line_error : Type := string * error_type.

Inductive exn : Type :=
| OverflowError
| ZeroDivisionError
| ValidationError (errors : list line_error).

Inductive result (A : Type) : Type :=
| Ok (a : A)
| Raise (e : exn).
Arguments Ok {A} a.
Arguments Raise {A} e.

#[global] Instance result_ret : MRet result := fun A a => Ok a.

#[global] Instance result_bind : MBind result := fun A B k r =>
  match r with
  | Ok a => k a
  | Raise e => Raise e
  end.

(** ** Numbers of the Python runtime *)

Module PyNum.

Import PyFloat.
Local Open Scope Q_scope.

(** [a / b] on two [int]s: the quotient correctly rounded; it raises when
    the divisor is zero or the quotient is too large for a float. *)
Definition int_truediv (a b : Z) : result float :=
  if (b =? 0)%Z then Raise ZeroDivisionError
  else
    match round_b64 (inject_Z a / inject_Z b) with
    | Finite v => Ok (Finite v)
    | _ => Raise OverflowError
    end.

(** [round(x, ndigits)] on a [float]: [x] rounded to the nearest multiple of
    [10^-ndigits], a tie going to the even multiple, and that decimal read
    back as a float.  Infinities and NaN round to themselves. *)
Definition round_ndigits (x : float) (ndigits : Z) : result float :=
  match x with
  | Finite v =>
      let p := 10 ^ ndigits in
      match round_b64 (inject_Z (round_half_even (v * p)) / p) with
      | Finite r => Ok (Finite r)
      | _ => Raise OverflowError
      end
  | _ => Ok x
  end.

End PyNum.

(** ** datetime

    A naive [datetime]; the clock ([datetime.utcnow]) is read by the caller
    and handed to the operations that need the current time. *)

Record datetime : Type := {
  year : Z; month : Z; day : Z;
  hour : Z; minute : Z; second : Z; microsecond : Z
}.

(** ** helpers.py

    [max_length] defaults to 100 and [model] to ["gpt-4o-mini"] at the call;
    here every argument is given. *)

Module Helpers.

Import PyFloat PyNum.

(** A two-digit field of [strftime] ([%H], [%M], [%S]). *)
Definition pad2 (n : Z) : string :=
  if (n <? 10)%Z then "0" ++ pretty n else pretty n.

Definition format_timestamp_short (now : datetime) (dt : option datetime) : string :=
  let dt := match dt with None => now | Some d => d end in
  pad2 (hour dt) ++ ":" ++ pad2 (minute dt) ++ ":" ++ pad2 (second dt).

Record model_cost : Type := { input : float; output : float }.

(** Cost per 1K tokens for various models (USD) *)
Definition MODEL_COSTS : gmap string model_cost :=
  list_to_map
    [ ("gpt-4o-mini", {| input := float_lit 15 (-5); output := float_lit 6 (-4) |});
      ("gpt-4o", {| input := float_lit 5 (-3); output := float_lit 15 (-3) |});
      ("gpt-4-turbo", {| input := float_lit 1 (-2); output := float_lit 3 (-2) |});
      ("gpt-4", {| input := float_lit 3 (-2); output := float_lit 6 (-2) |});
      ("gpt-3.5-turbo", {| input := float_lit 5 (-4); output := float_lit 15 (-4) |}) ].

Definition truncate_text (text : string) (max_length : Z) : string :=
  if PyStr.is_empty text then ""
  else if (PyStr.len text <=? max_length)%Z then text
  else if (max_length <=? 3)%Z then PyStr.slice_to text max_length
  else PyStr.slice_to text (max_length - 3) ++ "...".

Definition calculate_cost (input_tokens output_tokens : Z) (model : string)
  : result float :=
  match MODEL_COSTS !! model with
  | None => Ok (float_lit 0 0)
  | Some costs =>
      i ← int_truediv input_tokens 1000;
      let input_cost := fmul i (input costs) in
      o ← int_truediv output_tokens 1000;
      let output_cost := fmul o (output costs) in
      round_ndigits (fadd input_cost output_cost) 6
  end.

(** [uuid.uuid4().int]: the 128 random bits [r] of [os.urandom(16)] with
    the variant set to RFC 4122 and the version to 4, as [UUID.__init__]
    does. *)
Definition uuid4_int (r : Z) : Z :=
  let int := r mod 2 ^ 128 in
  let int := Z.land int (Z.lnot (Z.shiftl 0xc000 48)) in
  let int := Z.lor int (Z.shiftl 0x8000 48) in
  let int := Z.land int (Z.lnot (Z.shiftl 0xf000 64)) in
  Z.lor int (Z.shiftl 4 76).

(** One hexadecimal digit, lower case. *)
Definition hex_digit (d : Z) : ascii :=
  match d with
  | 0 => "0" | 1 => "1" | 2 => "2" | 3 => "3" | 4 => "4" | 5 => "5"
  | 6 => "6" | 7 => "7" | 8 => "8" | 9 => "9" | 10 => "a" | 11 => "b"
  | 12 => "c" | 13 => "d" | 14 => "e" | _ => "f"
  end%char.

(** ['%0nx' % u]: the [n] low hexadecimal digits of [u], the most
    significant first. *)
Fixpoint hex_digits (n : nat) (u : Z) : string :=
  match n with
  | O => EmptyString
  | S n' => hex_digits n' (u / 16) ++ String (hex_digit (u mod 16)) EmptyString
  end.

(** [UUID.hex] *)
Definition uuid_hex (int : Z) : string := hex_digits 32 int.

(** [r] is the randomness [uuid.uuid4()] draws. *)
Definition generate_event_id (prefix : string) (r : Z) : string :=
  let unique_part := PyStr.upper (PyStr.slice_to (uuid_hex (uuid4_int r)) 12) in
  prefix ++ "_" ++ unique_part.



End Helpers.

(** ** contracts.py: the enumeration *)

Module AuditEventType.

Inductive t : Type :=
| USER_QUERY | USER_FEEDBACK
| AI_RESPONSE | AI_ESCALATION
| SYSTEM_ERROR | SYSTEM_STARTUP | SYSTEM_SHUTDOWN
| POLICY_CHECK | POLICY_VIOLATION | HUMAN_OVERRIDE
| DATA_ACCESS | DATA_EXPORT
| AUTH_LOGIN | AUTH_LOGOUT | AUTH_FAILURE.

(** [member.value] *)
Definition value (e : t) : string :=
  match e with
  | USER_QUERY => "user_query"
  | USER_FEEDBACK => "user_feedback"
  | AI_RESPONSE => "ai_response"
  | AI_ESCALATION => "ai_escalation"
  | SYSTEM_ERROR => "system_error"
  | SYSTEM_STARTUP => "system_startup"
  | SYSTEM_SHUTDOWN => "system_shutdown"
  | POLICY_CHECK => "policy_check"
  | POLICY_VIOLATION => "policy_violation"
  | HUMAN_OVERRIDE => "human_override"
  | DATA_ACCESS => "data_access"
  | DATA_EXPORT => "data_export"
  | AUTH_LOGIN => "auth_login"
  | AUTH_LOGOUT => "auth_logout"
  | AUTH_FAILURE => "auth_failure"
  end.

(** [member.name] *)
Definition name (e : t) : string :=
  match e with
  | USER_QUERY => "USER_QUERY"
  | USER_FEEDBACK => "USER_FEEDBACK"
  | AI_RESPONSE => "AI_RESPONSE"
  | AI_ESCALATION => "AI_ESCALATION"
  | SYSTEM_ERROR => "SYSTEM_ERROR"
  | SYSTEM_STARTUP => "SYSTEM_STARTUP"
  | SYSTEM_SHUTDOWN => "SYSTEM_SHUTDOWN"
  | POLICY_CHECK => "POLICY_CHECK"
  | POLICY_VIOLATION => "POLICY_VIOLATION"
  | HUMAN_OVERRIDE => "HUMAN_OVERRIDE"
  | DATA_ACCESS => "DATA_ACCESS"
  | DATA_EXPORT => "DATA_EXPORT"
  | AUTH_LOGIN => "AUTH_LOGIN"
  | AUTH_LOGOUT => "AUTH_LOGOUT"
  | AUTH_FAILURE => "AUTH_FAILURE"
  end.

(** The members, in definition order. *)
Definition members : list t :=
  [ USER_QUERY; USER_FEEDBACK; AI_RESPONSE; AI_ESCALATION;
    SYSTEM_ERROR; SYSTEM_STARTUP; SYSTEM_SHUTDOWN;
    POLICY_CHECK; POLICY_VIOLATION; HUMAN_OVERRIDE;
    DATA_ACCESS; DATA_EXPORT; AUTH_LOGIN; AUTH_LOGOUT; AUTH_FAILURE ].

(** [AuditEventType(s)]: the member whose value is [s], if any. *)
Definition of_value (s : string) : option t :=
  find (fun e => String.eqb (value e) s) members.

End AuditEventType.

(** ** Schema validation

    The values a caller passes to a schema, and the validators of the field
    types the three schemas use.  A field accepts a value of its declared
    type; an enum field accepts a member or a member's value, and a float
    field accepts an int.  Conversions from any other type are not part of
    this model: such a value is reported as a type error. *)

Module Pydantic.

Import PyFloat.

#[warnings="-register-all"] Inductive pyval : Type :=
| PNone
| PBool (b : bool)
| PInt (n : Z)
| PFloat (x : float)
| PStr (s : string)
| PDatetime (t : datetime)
| PEnum (e : AuditEventType.t)
| PList (l : list pyval)
| PDict (d : list (string * pyval)).

(** The outcome of validating one field, or a whole model: the value, or
    the errors collected so far. *)
Definition validation (A : Type) : Type := list line_error + A.

Definition valid {A : Type} (a : A) : validation A := inr a.

(** Every field is validated; the errors of all of them are reported. *)
Definition vap {A B : Type} (f : validation (A -> B)) (x : validation A)
  : validation B :=
  match f, x with
  | inr g, inr a => inr (g a)
  | inr _, inl e => inl e
  | inl e, inr _ => inl e
  | inl e1, inl e2 => inl (e1 ++ e2)%list
  end.

Notation "f <*> x" := (vap f x) (at level 52, left associativity).

Definition to_result {A : Type} (v : validation A) : result A :=
  match v with
  | inr a => Ok a
  | inl errors => Raise (ValidationError errors)
  end.

(** A validator of one value. *)
Definition validator (A : Type) : Type := pyval -> error_type + A.

Definition str_validator : validator string := fun v =>
  match v with
  | PStr s => inr s
  | PEnum e => inr (AuditEventType.value e)   (* a member is a [str] *)
  | _ => inl string_type
  end.

Definition int_validator : validator Z := fun v =>
  match v with
  | PInt n => inr n
  | _ => inl int_type
  end.

Definition float_validator : validator float := fun v =>
  match v with
  | PFloat x => inr x
  | PInt n =>
      match round_b64 (inject_Z n) with
      | Finite x => inr (Finite x)
      | _ => inl float_type
      end
  | _ => inl float_type
  end.

Definition bool_validator : validator bool := fun v =>
  match v with
  | PBool b => inr b
  | _ => inl bool_type
  end.

Definition datetime_validator : validator datetime := fun v =>
  match v with
  | PDatetime t => inr t
  | _ => inl datetime_type
  end.

(** An enum field under [use_enum_values=True]: the member is found (by
    identity or by value) and its value is what the record holds. *)
Definition enum_value_validator : validator string := fun v =>
  match v with
  | PEnum e => inr (AuditEventType.value e)
  | PStr s =>
      match AuditEventType.of_value s with
      | Some e => inr (AuditEventType.value e)
      | None => inl enum_value
      end
  | _ => inl enum_value
  end.

(** [Dict[str, Any]] *)
Definition dict_validator : validator (list (string * pyval)) := fun v =>
  match v with
  | PDict d => inr d
  | _ => inl dict_type
  end.

(** [Optional[T]] *)
Definition optional {A : Type} (inner : validator A) : validator (option A) :=
  fun v =>
    match v with
    | PNone => inr None
    | _ => match inner v with inr a => inr (Some a) | inl e => inl e end
    end.

(** [Field(..., ge=0)] on an int. *)
Definition int_ge (bound : Z) (inner : validator Z) : validator Z := fun v =>
  match inner v with
  | inr n => if (bound <=? n)%Z then inr n else inl greater_than_equal
  | inl e => inl e
  end.

(** [Field(..., ge=0.0)] on a float. *)
Definition float_ge (bound : float) (inner : validator float) : validator float :=
  fun v =>
    match inner v with
    | inr x => if fle bound x then inr x else inl greater_than_equal
    | inl e => inl e
    end.

(** A field of a model: looked up in the keyword arguments by name; when it
    is absent its default is taken, and a field without default is
    reported missing. *)
Definition field {A : Type} (kwargs : gmap string pyval) (name : string)
    (validate : validator A) (default : option A) : validation A :=
  match kwargs !! name with
  | Some v =>
      match validate v with
      | inr a => inr a
      | inl e => inl [(name, e)]
      end
  | None =>
      match default with
      | Some a => inr a
      | None => inl [(name, missing)]
      end
  end.

(** The validation reports this line. *)
Definition fails_with {A : Type} (v : validation A) (e : line_error) : Prop :=
  exists errors, v = inl errors /\ e ∈ errors.

(** The report of a bound that does not hold. *)
Definition ge_error (name : string) : list line_error :=
  [(name, greater_than_equal)].

(** The declared type of a field, and the values of exactly that type. *)
Inductive pytype : Type :=
| TStr | TInt | TFloat | TBool | TDatetime | TEnum | TDict
| TOptional (t : pytype).

Fixpoint has_type (v : pyval) (t : pytype) : bool :=
  match t, v with
  | TStr, PStr _ => true
  | TInt, PInt _ => true
  | TFloat, PFloat _ => true
  | TBool, PBool _ => true
  | TDatetime, PDatetime _ => true
  | TEnum, PEnum _ => true
  | TDict, PDict _ => true
  | TOptional _, PNone => true
  | TOptional t', _ => has_type v t'
  | _, _ => false
  end.

(** An optional keyword argument: absent, or of the declared type. *)
Definition absent_or (kwargs : gmap string pyval) (name : string) (t : pytype)
  : Prop :=
  forall v, kwargs !! name = Some v -> has_type v t = true.

Definition of_option {A : Type} (inj : A -> pyval) (o : option A) : pyval :=
  match o with
  | None => PNone
  | Some a => inj a
  end.

End Pydantic.

(** ** contracts.py: the three schemas

    Each schema is a record, a constructor from keyword arguments (the
    validation pydantic runs in [__init__]; [now] is the clock the
    timestamp's default factory reads) and [model_dump]. *)

Module Contracts.

Import PyFloat Pydantic.

Record AuditEventSchema : Type := {
  event_id : string;
  event_type : string;
  timestamp : datetime;
  component : string;
  action : string;
  user_id : option string;
  session_id : option string;
  success : bool;
  details : option (list (string * pyval));
  metadata : option (list (string * pyval))
}.

Definition AuditEventSchema_new (now : datetime) (kwargs : gmap string pyval)
  : result AuditEventSchema :=
  to_result
    (valid Build_AuditEventSchema
       <*> field kwargs "event_id" str_validator None
       <*> field kwargs "event_type" enum_value_validator None
       <*> field kwargs "timestamp" datetime_validator (Some now)
       <*> field kwargs "component" str_validator None
       <*> field kwargs "action" str_validator None
       <*> field kwargs "user_id" (optional str_validator) (Some None)
       <*> field kwargs "session_id" (optional str_validator) (Some None)
       <*> field kwargs "success" bool_validator (Some true)
       <*> field kwargs "details" (optional dict_validator) (Some None)
       <*> field kwargs "metadata" (optional dict_validator) (Some None)).

Definition AuditEventSchema_model_dump (r : AuditEventSchema) : gmap string pyval :=
  list_to_map
    [ ("event_id", PStr (event_id r));
      ("event_type", PStr (event_type r));
      ("timestamp", PDatetime (timestamp r));
      ("component", PStr (component r));
      ("action", PStr (action r));
      ("user_id", of_option PStr (user_id r));
      ("session_id", of_option PStr (session_id r));
      ("success", PBool (success r));
      ("details", of_option PDict (details r));
      ("metadata", of_option PDict (metadata r)) ].

Record CostTrackingSchema : Type := {
  cost_event_id : string;
  cost_timestamp : datetime;
  model : string;
  input_tokens : Z;
  output_tokens : Z;
  total_tokens : Z;
  cost_usd : float;
  cost_component : option string;
  cost_session_id : option string
}.

Definition CostTrackingSchema_new (now : datetime) (kwargs : gmap string pyval)
  : result CostTrackingSchema :=
  to_result
    (valid Build_CostTrackingSchema
       <*> field kwargs "event_id" str_validator None
       <*> field kwargs "timestamp" datetime_validator (Some now)
       <*> field kwargs "model" str_validator None
       <*> field kwargs "input_tokens" (int_ge 0 int_validator) None
       <*> field kwargs "output_tokens" (int_ge 0 int_validator) None
       <*> field kwargs "total_tokens" (int_ge 0 int_validator) None
       <*> field kwargs "cost_usd" (float_ge (float_lit 0 0) float_validator) None
       <*> field kwargs "component" (optional str_validator) (Some None)
       <*> field kwargs "session_id" (optional str_validator) (Some None)).

Definition CostTrackingSchema_model_dump (r : CostTrackingSchema) : gmap string pyval :=
  list_to_map
    [ ("event_id", PStr (cost_event_id r));
      ("timestamp", PDatetime (cost_timestamp r));
      ("model", PStr (model r));
      ("input_tokens", PInt (input_tokens r));
      ("output_tokens", PInt (output_tokens r));
      ("total_tokens", PInt (total_tokens r));
      ("cost_usd", PFloat (cost_usd r));
      ("component", of_option PStr (cost_component r));
      ("session_id", of_option PStr (cost_session_id r)) ].

Record GovernanceLogEntry : Type := {
  log_timestamp : datetime;
  log_component : string;
  log_action : string;
  log_success : bool;
  log_details : option string
}.

Definition GovernanceLogEntry_new (now : datetime) (kwargs : gmap string pyval)
  : result GovernanceLogEntry :=
  to_result
    (valid Build_GovernanceLogEntry
       <*> field kwargs "timestamp" datetime_validator (Some now)
       <*> field kwargs "component" str_validator None
       <*> field kwargs "action" str_validator None
       <*> field kwargs "success" bool_validator (Some true)
       <*> field kwargs "details" (optional str_validator) (Some None)).

Definition GovernanceLogEntry_model_dump (r : GovernanceLogEntry) : gmap string pyval :=
  list_to_map
    [ ("timestamp", PDatetime (log_timestamp r));
      ("component", PStr (log_component r));
      ("action", PStr (log_action r));
      ("success", PBool (log_success r));
      ("details", of_option PStr (log_details r)) ].

End Contracts.

(** ** governance_ui.py

    [st.session_state] is a map from slot names to values; the only slot
    this module touches is ["governance_logs"], a list of entries.  What a
    call draws in the sidebar is the list of widgets it emits. *)

Module GovernanceUI.

Import Pydantic Contracts Helpers.

#[warnings="-register-all"] Inductive widget : Type :=
| Subheader (body : string)
| Caption (body : string)
| Markdown (body : string) (help : option string)
| Divider
| Columns (spec : list Z) (columns : list (list widget))
| Container (children : list widget).

Definition init_governance_state
    (session_state : gmap string (list GovernanceLogEntry))
  : gmap string (list GovernanceLogEntry) :=
  match session_state !! "governance_logs" with
  | Some _ => session_state
  | None => <["governance_logs" := []]> session_state
  end.

(** [now] is the value of [datetime.utcnow()] at the call.  The result is
    the session state after the call and the entry returned. *)
Definition add_governance_log (now : datetime)
    (component action : string) (success : bool) (details : option string)
    (session_state : gmap string (list GovernanceLogEntry))
  : result (gmap string (list GovernanceLogEntry) * GovernanceLogEntry) :=
  let session_state := init_governance_state session_state in
  entry ← GovernanceLogEntry_new now
             (list_to_map
                [ ("timestamp", PDatetime now);
                  ("component", PStr component);
                  ("action", PStr action);
                  ("success", PBool success);
                  ("details", of_option PStr details) ]);
  let logs := default [] (session_state !! "governance_logs") in
  Ok (<["governance_logs" := (logs ++ [entry])%list]> session_state, entry).

(** The truth value of an optional string: [None] and [""] are false. *)
Definition truthy (details : option string) : bool :=
  match details with
  | None => false
  | Some d => negb (PyStr.is_empty d)
  end.

Definition _render_log_entry (now : datetime) (entry : GovernanceLogEntry)
  : list widget :=
  let status_icon := if log_success entry then "✅" else "❌" in
  let time_str := format_timestamp_short now (Some (log_timestamp entry)) in
  [ Container
      ([ Columns [3; 1]
           [ [ Markdown
                 ("**" ++ log_component entry ++ "** · " ++ log_action entry)
                 (if truthy (log_details entry) then log_details entry else None) ];
             [ Caption (status_icon ++ " " ++ time_str) ] ] ]
       ++ (if truthy (log_details entry)
           then [ Caption ("↳ " ++ default "" (log_details entry)) ]
           else [])
       ++ [ Divider ])%list ].

(** The session state after the call, and the contents of the sidebar. *)
Definition render_governance_panel (now : datetime) (title : string)
    (session_state : gmap string (list GovernanceLogEntry))
  : gmap string (list GovernanceLogEntry) * list widget :=
  let session_state := init_governance_state session_state in
  let logs := default [] (session_state !! "governance_logs") in
  (session_state,
   (Subheader title ::
    match logs with
    | [] => [ Caption "No governance events recorded yet." ]
    | _ =>
        [ Caption ("Showing " ++ pretty (length logs) ++ " event(s)");
          Container (flat_map (_render_log_entry now) (reverse logs)) ]
    end)%list).

End GovernanceUI.

(** ** The specification's formulas *)

Module Spec.

Import PyFloat PyNum Helpers Pydantic.

(** The cost as the specification writes it:
    [round(input_tokens/1000 * input_rate + output_tokens/1000 * output_rate, 6)]. *)
Definition cost_formula (input_tokens output_tokens : Z)
    (input_rate output_rate : float) : result float :=
  i ← int_truediv input_tokens 1000;
  let input_cost := fmul i input_rate in
  o ← int_truediv output_tokens 1000;
  let output_cost := fmul o output_rate in
  round_ndigits (fadd input_cost output_cost) 6.

(** [calculate_cost(a, b, model) <= calculate_cost(a + delta, b, model)]:
    both calls return and the values compare. *)
Definition cost_le (a b delta : Z) (model : string) : Prop :=
  exists x y, calculate_cost a b model = Ok x
              /\ calculate_cost (a + delta) b model = Ok y
              /\ fle x y = true.

(** "[event_id], [component], [action]: required non-empty strings": a
    construction in which one of them is the empty string fails. *)
Definition rejects_empty_strings : Prop :=
  forall (now : datetime) (kwargs : gmap string pyval),
    kwargs !! "event_id" = Some (Pydantic.PStr "")
    \/ kwargs !! "component" = Some (Pydantic.PStr "")
    \/ kwargs !! "action" = Some (Pydantic.PStr "") ->
    exists errors,
      Contracts.AuditEventSchema_new now kwargs = Raise (ValidationError errors).

(** One call of [add_governance_log]: the clock at the call and the
    arguments. *)
Record append_call : Type := {
  call_now : datetime;
  call_component : string;
  call_action : string;
  call_success : bool;
  call_details : option string
}.

(** A sequence of appends made in order; the entries the calls return. *)
Fixpoint append_all (calls : list append_call)
    (session_state : gmap string (list Contracts.GovernanceLogEntry))
  : result (gmap string (list Contracts.GovernanceLogEntry)
            * list Contracts.GovernanceLogEntry) :=
  match calls with
  | [] => Ok (session_state, [])
  | c :: rest =>
      r ← GovernanceUI.add_governance_log (call_now c) (call_component c)
             (call_action c) (call_success c) (call_details c) session_state;
      r' ← append_all rest r.1;
      Ok (r'.1, r.2 :: r'.2)
  end.

(** The entry a call is expected to create. *)
Definition entry_of_call (c : append_call) : Contracts.GovernanceLogEntry :=
  {| Contracts.log_timestamp := call_now c;
     Contracts.log_component := call_component c;
     Contracts.log_action := call_action c;
     Contracts.log_success := call_success c;
     Contracts.log_details := call_details c |}.

(** The value of the cost formula, every step rounded to nearest with no
    bound on the exponent. *)
Definition cost_value (a b : Z) (ri ro : Q) : Q :=
  let sum := rnd (rnd (rnd (inject_Z a / 1000) * ri)
                  + rnd (rnd (inject_Z b / 1000) * ro))%Q in
  rnd (inject_Z (round_half_even (sum * 10 ^ 6)) / 10 ^ 6)%Q.





(** Upper-case hexadecimal digits. *)
Definition is_upper_hex (c : ascii) : bool :=
  let n := nat_of_ascii c in
  ((48 <=? n)%nat && (n <=? 57)%nat) || ((65 <=? n)%nat && (n <=? 70)%nat).

Fixpoint all_chars (p : ascii -> bool) (s : string) : bool :=
  match s with
  | EmptyString => true
  | String c s' => p c && all_chars p s'
  end.

(** The lines reported for the bounds a cost record violates, in the order
    of the fields. *)
Definition bound_errors (it ot tt : Z) (c : float) : list line_error :=
  ((if it <? 0 then ge_error "input_tokens" else [])
   ++ (if ot <? 0 then ge_error "output_tokens" else [])
   ++ (if tt <? 0 then ge_error "total_tokens" else [])
   ++ (if flt c (float_lit 0 0) then ge_error "cost_usd" else []))%list.

(** "Construction raises [ValidationError] if any of [input_tokens],
    [output_tokens], [total_tokens] is negative or [cost_usd] is less than
    [0.0], and otherwise succeeds": for arguments of the right types, the
    record is refused exactly when one of the four is below zero. *)
Definition rejects_exactly_negative : Prop :=
  forall (now : datetime) (kwargs : gmap string pyval) eid m it ot tt c,
    kwargs !! "event_id" = Some (PStr eid) ->
    kwargs !! "model" = Some (PStr m) ->
    kwargs !! "input_tokens" = Some (PInt it) ->
    kwargs !! "output_tokens" = Some (PInt ot) ->
    kwargs !! "total_tokens" = Some (PInt tt) ->
    kwargs !! "cost_usd" = Some (PFloat c) ->
    absent_or kwargs "timestamp" TDatetime ->
    absent_or kwargs "component" (TOptional TStr) ->
    absent_or kwargs "session_id" (TOptional TStr) ->
    (it < 0 \/ ot < 0 \/ tt < 0 \/ flt c (float_lit 0 0) = true ->
       exists errors,
         Contracts.CostTrackingSchema_new now kwargs
         = Raise (ValidationError errors))
    /\ (~ (it < 0 \/ ot < 0 \/ tt < 0 \/ flt c (float_lit 0 0) = true) ->
          exists r, Contracts.CostTrackingSchema_new now kwargs = Ok r).

(** The keyword arguments of a cost record for one model call: the token
    counts, their sum, and the cost computed for them. *)
Definition cost_kwargs (eid model : string) (a b : Z) (cost : float)
  : gmap string pyval :=
  list_to_map
    [ ("event_id", PStr eid);
      ("model", PStr model);
      ("input_tokens", PInt a);
      ("output_tokens", PInt b);
      ("total_tokens", PInt (a + b));
      ("cost_usd", PFloat cost) ].

(** The least token count whose quotient by 1000 is too large for a float:
    [1000 * (2^1024 - 2^970)], about [1.8e311]. *)
Definition overflow_threshold : Z := 1000 * (2 ^ 1024 - 2 ^ 970).

End Spec.

(** ** Sample data *)

Module Samples.

Import Pydantic.

(** 2024-06-15 09:05:03 *)
Definition clock : datetime :=
  {| year := 2024; month := 6; day := 15;
     hour := 9; minute := 5; second := 3; microsecond := 0 |}.

(** An audit event whose strings are all empty. *)
Definition empty_strings : gmap string pyval :=
  list_to_map
    [ ("event_id", PStr "");
      ("event_type", PEnum AuditEventType.USER_QUERY);
      ("component", PStr "");
      ("action", PStr "") ].

(** An audit event without [component]. *)
Definition no_component : gmap string pyval :=
  list_to_map
    [ ("event_id", PStr "EVT_123");
      ("event_type", PEnum AuditEventType.USER_QUERY);
      ("action", PStr "User submitted query") ].

(** A cost record whose total is not the sum of its parts. *)
Definition odd_total : gmap string pyval :=
  list_to_map
    [ ("event_id", PStr "EVT_COST_001");
      ("model", PStr "gpt-4o-mini");
      ("input_tokens", PInt 1000);
      ("output_tokens", PInt 500);
      ("total_tokens", PInt 7);
      ("cost_usd", PFloat (PyFloat.float_lit 45 (-5))) ].

(** A cost record carrying the cost [cost]. *)
Definition with_cost (cost : PyFloat.float) : gmap string pyval :=
  list_to_map
    [ ("event_id", PStr "EVT_COST_002");
      ("model", PStr "gpt-4o-mini");
      ("input_tokens", PInt 0);
      ("output_tokens", PInt 0);
      ("total_tokens", PInt 0);
      ("cost_usd", PFloat cost) ].

(** An audit event with the required fields only. *)
Definition required_only : gmap string pyval :=
  list_to_map
    [ ("event_id", PStr "EVT_123ABC");
      ("event_type", PEnum AuditEventType.USER_QUERY);
      ("component", PStr "ChatUI");
      ("action", PStr "User submitted query") ].

(** An audit event whose type is given by a string. *)
Definition typed_by_string (tag : string) : gmap string pyval :=
  list_to_map
    [ ("event_id", PStr "EVT_123ABC");
      ("event_type", PStr tag);
      ("component", PStr "ChatUI");
      ("action", PStr "User submitted query") ].

(** A log entry with the required fields only. *)
Definition entry_required_only : gmap string pyval :=
  list_to_map [ ("component", PStr "Auth"); ("action", PStr "User login") ].

(** A cost record with two bounds violated. *)
Definition two_violations : gmap string pyval :=
  list_to_map
    [ ("event_id", PStr "EVT_BAD");
      ("model", PStr "gpt-4o-mini");
      ("input_tokens", PInt (-100));
      ("output_tokens", PInt 500);
      ("total_tokens", PInt 400);
      ("cost_usd", PFloat (PyFloat.float_lit (-1) (-3))) ].

End Samples.

Module SampleCalls.

Import Spec.

(** Three appends, [A] then [B] then [C]. *)
Definition A : append_call :=
  {| call_now := Samples.clock; call_component := "A"; call_action := "first";
     call_success := true; call_details := None |}.

Definition B : append_call :=
  {| call_now := Samples.clock; call_component := "B"; call_action := "second";
     call_success := false; call_details := Some "denied" |}.

Definition C : append_call :=
  {| call_now := Samples.clock; call_component := "C"; call_action := "third";
     call_success := true; call_details := None |}.

End SampleCalls.

(** * Properties *)

Import PyFloat PyNum Helpers Pydantic Contracts GovernanceUI.

(** ** Slices *)

Section Slices.

Import PyStr.

Lemma prefix_substring (n : nat) (s : string) : prefix n s = substring 0 n s.
Proof.
  revert s; induction n as [|n IH]; intros [|c s]; simpl; try reflexivity.
  now rewrite IH.
Qed.

Lemma prefix_length (n : nat) (s : string) :
  String.length (prefix n s) = Nat.min n (String.length s).
Proof.
  revert s; induction n as [|n IH]; intros [|c s]; simpl; try reflexivity.
  now rewrite IH.
Qed.

Lemma prefix_all (n : nat) (s : string) :
  (String.length s <= n)%nat -> prefix n s = s.
Proof.
  revert s; induction n as [|n IH]; intros [|c s]; simpl; intros H;
    try reflexivity; try lia.
  rewrite IH by lia; reflexivity.
Qed.

Lemma append_length (s t : string) :
  String.length (s ++ t) = (String.length s + String.length t)%nat.
Proof. induction s as [|c s IH]; simpl; [reflexivity | now rewrite IH]. Qed.

Lemma slice_to_short (s : string) (stop : Z) :
  0 <= stop < len s -> slice_to s stop = prefix (Z.to_nat stop) s.
Proof.
  intros H. unfold slice_to, adjust_stop.
  destruct (Z.ltb_spec stop 0); [lia|].
  destruct (Z.ltb_spec (len s) stop); [lia|]. reflexivity.
Qed.

Lemma slice_to_all (s : string) (stop : Z) :
  len s <= stop -> slice_to s stop = s.
Proof.
  intros H. unfold slice_to, adjust_stop, len in *.
  destruct (Z.ltb_spec stop 0); [lia|].
  destruct (Z.ltb_spec (Z.of_nat (String.length s)) stop);
    apply prefix_all; lia.
Qed.

Lemma is_empty_len (s : string) : is_empty s = true <-> s = "".
Proof. destruct s; simpl; split; congruence. Qed.

End Slices.

(** ** truncate_text *)

(** C1.  With [max_length > 3] the result is never longer than
    [max_length]; a text that fits is returned unchanged; a longer text
    becomes its first [max_length - 3] characters followed by three periods,
    of length exactly [max_length].  With [max_length <= 3] the result is
    the slice [text[:max_length]], nothing appended.  The empty text gives
    the empty string. *)
Theorem truncate_text_law (text : string) (max_length : Z) :
  (3 < max_length ->
     PyStr.len (truncate_text text max_length) <= max_length
     /\ (PyStr.len text <= max_length -> truncate_text text max_length = text)
     /\ (max_length < PyStr.len text ->
           truncate_text text max_length
           = substring 0 (Z.to_nat (max_length - 3)) text ++ "..."
           /\ String.length (substring 0 (Z.to_nat (max_length - 3)) text)
              = Z.to_nat (max_length - 3)
           /\ PyStr.len (truncate_text text max_length) = max_length))
  /\ (max_length <= 3 ->
        truncate_text text max_length = PyStr.slice_to text max_length)
  /\ truncate_text "" max_length = "".
Proof.
  assert (Hfit : PyStr.len text <= max_length ->
                 truncate_text text max_length = text).
  { intros H. unfold truncate_text.
    destruct (PyStr.is_empty text) eqn:E.
    - apply is_empty_len in E. now subst.
    - destruct (Z.leb_spec (PyStr.len text) max_length); [reflexivity | lia]. }
  assert (Hcut : 3 < max_length -> max_length < PyStr.len text ->
                 truncate_text text max_length
                 = PyStr.prefix (Z.to_nat (max_length - 3)) text ++ "...").
  { intros H3 H. unfold truncate_text.
    destruct (PyStr.is_empty text) eqn:E.
    { apply is_empty_len in E. subst. unfold PyStr.len in H. simpl in H. lia. }
    destruct (Z.leb_spec (PyStr.len text) max_length); [lia|].
    destruct (Z.leb_spec max_length 3); [lia|].
    rewrite slice_to_short by lia. reflexivity. }
  assert (Hlen : 3 < max_length -> max_length < PyStr.len text ->
                 PyStr.len (truncate_text text max_length) = max_length).
  { intros H3 H. rewrite Hcut by assumption.
    unfold PyStr.len in *. rewrite append_length, prefix_length. simpl. lia. }
  split; [|split].
  - intros H3. split; [|split].
    + destruct (Z.le_gt_cases (PyStr.len text) max_length) as [H|H].
      * rewrite Hfit by assumption. assumption.
      * rewrite Hlen by assumption. lia.
    + exact Hfit.
    + intros H. split; [|split].
      * rewrite <- prefix_substring. now apply Hcut.
      * rewrite <- prefix_substring, prefix_length.
        unfold PyStr.len in H. lia.
      * now apply Hlen.
  - intros H3. unfold truncate_text.
    destruct (PyStr.is_empty text) eqn:E.
    { apply is_empty_len in E. subst. now destruct max_length. }
    destruct (Z.leb_spec (PyStr.len text) max_length) as [H|H].
    + now rewrite slice_to_all.
    + destruct (Z.leb_spec max_length 3); [reflexivity | lia].
  - reflexivity.
Qed.

(** The scenarios of the tests. *)
Example truncate_text_scenarios :
  truncate_text "Hello World" 8 = "Hello..."
  /\ truncate_text "Hello" 5 = "Hello"
  /\ truncate_text "Hello" 3 = "Hel"
  /\ truncate_text "Hello World" 5 = "He..."
  /\ truncate_text "" 100 = "".
Proof. repeat split. Qed.

(** A negative [max_length] counts from the end, as a slice does. *)
Example truncate_text_negative : truncate_text "Hello" (-2) = "Hel".
Proof. reflexivity. Qed.

Example format_timestamp_short_scenario :
  format_timestamp_short Samples.clock (Some Samples.clock) = "09:05:03".
Proof. reflexivity. Qed.

(** ** Rounding *)

Section Rounding.

Local Open Scope Q_scope.

Lemma round_half_even_bounds (x : Q) :
  (Qfloor x <= round_half_even x <= Qfloor x + 1)%Z.
Proof.
  unfold round_half_even.
  destruct (Qcompare (x - inject_Z (Qfloor x)) (1 # 2)); [|lia|lia].
  destruct (Z.even (Qfloor x)); lia.
Qed.

Lemma round_half_even_mono (x y : Q) :
  x <= y -> (round_half_even x <= round_half_even y)%Z.
Proof.
  intros Hxy.
  pose proof (Qfloor_resp_le _ _ Hxy) as Hf.
  destruct (Z.eq_dec (Qfloor x) (Qfloor y)) as [E|NE].
  - unfold round_half_even. rewrite <- E.
    destruct (Qcompare_spec (x - inject_Z (Qfloor x)) (1 # 2)) as [Hx|Hx|Hx];
      destruct (Qcompare_spec (y - inject_Z (Qfloor x)) (1 # 2)) as [Hy|Hy|Hy];
      try destruct (Z.even (Qfloor x)); try lia; exfalso; lra.
  - pose proof (round_half_even_bounds x). pose proof (round_half_even_bounds y).
    lia.
Qed.

Lemma round_half_even_Z (z : Z) : round_half_even (inject_Z z) = z.
Proof.
  unfold round_half_even. rewrite Qfloor_Z.
  destruct (Qcompare_spec (inject_Z z - inject_Z z) (1 # 2)) as [H|H|H];
    [exfalso; lra | reflexivity | exfalso; lra].
Qed.

Lemma round_half_even_le_Z (x : Q) (z : Z) :
  x <= inject_Z z -> (round_half_even x <= z)%Z.
Proof.
  intros H. rewrite <- (round_half_even_Z z). now apply round_half_even_mono.
Qed.

Lemma round_half_even_ge_Z (x : Q) (z : Z) :
  inject_Z z <= x -> (z <= round_half_even x)%Z.
Proof.
  intros H. rewrite <- (round_half_even_Z z). now apply round_half_even_mono.
Qed.

(** Powers of two. *)

Lemma pow2_pos (k : Z) : 0 < 2 ^ k.
Proof. apply Qpower_0_lt. reflexivity. Qed.

Lemma pow2_add (a b : Z) : 2 ^ (a + b) == 2 ^ a * 2 ^ b.
Proof. apply Qpower_plus. discriminate. Qed.

Lemma pow2_succ (a : Z) : 2 ^ (a + 1) == 2 * 2 ^ a.
Proof. rewrite pow2_add. change (2 ^ 1) with 2. ring. Qed.

Lemma pow2_mono (a b : Z) : (a <= b)%Z -> 2 ^ a <= 2 ^ b.
Proof. intros H. apply Qpower_le_compat_l; [assumption | discriminate]. Qed.

Lemma pow2_mono_strict (a b : Z) : (a < b)%Z -> 2 ^ a < 2 ^ b.
Proof. intros H. apply Qpower_lt_compat_l; [assumption | reflexivity]. Qed.

Lemma pow2_Z (k : Z) : (0 <= k)%Z -> inject_Z (2 ^ k) == 2 ^ k.
Proof. intros H. now rewrite Zpower_Qpower. Qed.

(** The binade of a value brackets its magnitude. *)
Lemma binade_spec (x : Q) :
  ~ x == 0 -> 2 ^ binade x <= Qabs x /\ Qabs x < 2 ^ (binade x + 1).
Proof.
  intros Hx. unfold binade.
  set (n := Z.abs (Qnum x)). set (d := Zpos (Qden x)).
  set (k := (Z.log2 n - Z.log2 d)%Z).
  assert (Hn : (0 < n)%Z).
  { subst n. destruct x as [[|p|p] q]; simpl; try lia.
    exfalso. apply Hx. reflexivity. }
  assert (Hd : (0 < d)%Z) by (subst d; lia).
  destruct (Z.log2_spec n Hn) as [Hn1 Hn2].
  destruct (Z.log2_spec d Hd) as [Hd1 Hd2].
  pose proof (Z.log2_nonneg n) as Ln. pose proof (Z.log2_nonneg d) as Ld.
  assert (Habs : Qabs x * inject_Z d == inject_Z n).
  { subst n d. destruct x as [a b]. rewrite <- Zabs_Qabs. simpl.
    rewrite (Qmake_Qdiv (Z.abs a) b). field.
    intros H. discriminate H. }
  rewrite Zle_Qle in Hn1, Hd1. rewrite Zlt_Qlt in Hn2, Hd2.
  rewrite pow2_Z in Hn1, Hd1 by lia.
  unfold Z.succ in Hn2, Hd2.
  rewrite pow2_Z in Hn2, Hd2 by lia.
  rewrite pow2_succ in Hn2, Hd2.
  assert (Hk : 2 ^ Z.log2 n == 2 ^ k * 2 ^ Z.log2 d).
  { rewrite <- pow2_add. subst k.
    replace (Z.log2 n - Z.log2 d + Z.log2 d)%Z with (Z.log2 n) by lia.
    reflexivity. }
  pose proof (pow2_pos k) as Pk. pose proof (pow2_pos (Z.log2 d)) as Pd.
  pose proof (Qabs_nonneg x) as Ha.
  set (A := Qabs x) in *. set (D := inject_Z d) in *.
  set (N := inject_Z n) in *. set (T := 2 ^ k) in *.
  set (Pn := 2 ^ Z.log2 n) in *. set (Pdd := 2 ^ Z.log2 d) in *.
  assert (Hup : A < 2 * T).
  { apply Qnot_le_lt. intros C.
    assert (2 * T * Pdd <= A * D).
    { apply Qmult_le_compat_nonneg; split; try lra. }
    lra. }
  assert (Hlo : T <= 2 * A).
  { apply Qnot_lt_le. intros C.
    assert (2 * A * D < T * (2 * Pdd)).
    { apply Qle_lt_trans with (2 * A * (2 * Pdd)).
      - apply Qmult_le_compat_nonneg; split; try lra.
      - apply Qmult_lt_compat_r; lra. }
    lra. }
  destruct (Qle_bool T A) eqn:E.
  - apply Qle_bool_iff in E. split; [assumption|].
    fold T. rewrite pow2_succ. fold T. assumption.
  - assert (~ T <= A) as E' by (rewrite <- Qle_bool_iff; congruence).
    apply Qnot_le_lt in E'.
    replace (k - 1 + 1)%Z with k by lia. fold T. split; [|assumption].
    assert (H2 : 2 ^ k == 2 * 2 ^ (k - 1)).
    { rewrite <- pow2_succ. replace (k - 1 + 1)%Z with k by lia. reflexivity. }
    fold T in H2. lra.
Qed.

Lemma binade_mono (x y : Q) : 0 < x -> x <= y -> (binade x <= binade y)%Z.
Proof.
  intros Hx Hxy.
  destruct (binade_spec x) as [Lx _]; [lra|].
  destruct (binade_spec y) as [_ Uy]; [lra|].
  rewrite Qabs_pos in Lx, Uy by lra.
  destruct (Z_le_gt_dec (binade x) (binade y)) as [H|H]; [assumption|].
  exfalso.
  assert (2 ^ (binade y + 1) <= 2 ^ binade x) by (apply pow2_mono; lia).
  lra.
Qed.

Lemma quantum_exp_mono (x y : Q) :
  0 < x -> x <= y -> (quantum_exp x <= quantum_exp y)%Z.
Proof.
  intros Hx Hxy. pose proof (binade_mono x y Hx Hxy).
  unfold quantum_exp. lia.
Qed.

Lemma rnd_zero (x : Q) : x == 0 -> rnd x = 0.
Proof.
  intros H. unfold rnd. apply Qeq_bool_iff in H. now rewrite H.
Qed.

Lemma rnd_nonzero (x : Q) :
  ~ x == 0 ->
  rnd x = inject_Z (round_half_even (x / 2 ^ quantum_exp x)) * 2 ^ quantum_exp x.
Proof.
  intros H. unfold rnd.
  destruct (Qeq_bool x 0) eqn:E; [|reflexivity].
  apply Qeq_bool_iff in E. contradiction.
Qed.

Lemma div_pow2_mono (x y : Q) (q : Z) : x <= y -> x / 2 ^ q <= y / 2 ^ q.
Proof.
  intros H. pose proof (pow2_pos q).
  apply Qle_shift_div_l; [assumption|].
  assert (x / 2 ^ q * 2 ^ q == x) as -> by (field; lra). assumption.
Qed.

Lemma rnd_nonneg (x : Q) : 0 <= x -> 0 <= rnd x.
Proof.
  intros Hx. unfold rnd. destruct (Qeq_bool x 0); [lra|].
  pose proof (pow2_pos (quantum_exp x)) as Hp.
  assert (0 <= round_half_even (x / 2 ^ quantum_exp x))%Z as Hr.
  { apply (round_half_even_ge_Z _ 0%Z). change (inject_Z 0) with 0.
    apply Qle_shift_div_l; [assumption | lra]. }
  rewrite Zle_Qle in Hr. change (inject_Z 0) with 0 in Hr.
  apply Qmult_le_0_compat; lra.
Qed.

(** A value in a normal binade rounds within the binade. *)
Lemma rnd_lower (x : Q) :
  0 < x -> quantum_exp x = (binade x - (prec - 1))%Z -> 2 ^ binade x <= rnd x.
Proof.
  intros Hx Hq.
  destruct (binade_spec x) as [Lx _]; [lra|].
  rewrite Qabs_pos in Lx by lra.
  rewrite rnd_nonzero by lra. rewrite Hq.
  set (q := (binade x - (prec - 1))%Z).
  pose proof (pow2_pos q) as Hp.
  assert (Hsplit : 2 ^ binade x == 2 ^ (prec - 1) * 2 ^ q).
  { rewrite <- pow2_add. subst q.
    replace (prec - 1 + (binade x - (prec - 1)))%Z with (binade x) by lia.
    reflexivity. }
  assert (Hr : (2 ^ (prec - 1) <= round_half_even (x / 2 ^ q))%Z).
  { apply round_half_even_ge_Z. rewrite pow2_Z by (unfold prec; lia).
    apply Qle_shift_div_l; [assumption | lra]. }
  rewrite Zle_Qle in Hr. rewrite pow2_Z in Hr by (unfold prec; lia).
  rewrite Hsplit. apply Qmult_le_compat_r; lra.
Qed.

Lemma rnd_upper (x : Q) :
  0 < x -> rnd x <= 2 ^ Z.max (binade x + 1) (quantum_exp x).
Proof.
  intros Hx.
  destruct (binade_spec x) as [_ Ux]; [lra|].
  rewrite Qabs_pos in Ux by lra.
  rewrite rnd_nonzero by lra.
  set (q := quantum_exp x). set (e := binade x) in *.
  set (j := Z.max (e + 1 - q) 0).
  pose proof (pow2_pos q) as Hp.
  assert (Hj : 2 ^ Z.max (e + 1) q == 2 ^ j * 2 ^ q).
  { rewrite <- pow2_add. subst j.
    replace (Z.max (e + 1 - q) 0 + q)%Z with (Z.max (e + 1) q) by lia.
    reflexivity. }
  assert (Hle : 2 ^ (e + 1) <= 2 ^ Z.max (e + 1) q) by (apply pow2_mono; lia).
  assert (Hr : (round_half_even (x / 2 ^ q) <= 2 ^ j)%Z).
  { apply round_half_even_le_Z. rewrite pow2_Z by (subst j; lia).
    apply Qle_shift_div_r; [assumption | lra]. }
  rewrite Zle_Qle in Hr. rewrite pow2_Z in Hr by (subst j; lia).
  rewrite Hj. apply Qmult_le_compat_r; lra.
Qed.

(** Rounding to nearest is monotone (on the non-negative values, where the
    cost computation lives). *)
Lemma rnd_mono (x y : Q) : 0 <= x -> x <= y -> rnd x <= rnd y.
Proof.
  intros Hx Hxy.
  destruct (Qeq_dec x 0) as [Z0|NZ].
  { rewrite (rnd_zero x Z0). apply rnd_nonneg. lra. }
  assert (Px : 0 < x) by (destruct (Qlt_le_dec 0 x); [assumption | exfalso; apply NZ; lra]).
  pose proof (quantum_exp_mono x y Px Hxy) as Hq.
  pose proof (binade_mono x y Px Hxy) as He.
  destruct (Z.eq_dec (quantum_exp x) (quantum_exp y)) as [E|NE].
  - rewrite !rnd_nonzero by lra. rewrite <- E.
    pose proof (pow2_pos (quantum_exp x)).
    apply Qmult_le_compat_r; [|lra].
    rewrite <- Zle_Qle. apply round_half_even_mono. now apply div_pow2_mono.
  - assert (Hy : quantum_exp y = (binade y - (prec - 1))%Z).
    { unfold quantum_exp in *. lia. }
    apply Qle_trans with (2 ^ Z.max (binade x + 1) (quantum_exp x)).
    { now apply rnd_upper. }
    apply Qle_trans with (2 ^ binade y).
    { apply pow2_mono. unfold quantum_exp, prec, emin in *. lia. }
    apply rnd_lower; [lra | assumption].
Qed.

(** What a finite result of [round_b64] is. *)
Lemma round_b64_finite (x v : Q) :
  round_b64 x = Finite v -> v == rnd x /\ Qabs (rnd x) < 2 ^ emax.
Proof.
  unfold round_b64. destruct (Qle_bool (2 ^ emax) (Qabs (rnd x))) eqn:E;
    [discriminate|].
  intros [= <-]. split; [apply Qred_correct|].
  apply Qnot_le_lt. rewrite <- Qle_bool_iff. congruence.
Qed.

Lemma round_b64_small (x : Q) :
  Qabs (rnd x) < 2 ^ emax -> round_b64 x = Finite (Qred (rnd x)).
Proof.
  intros H. unfold round_b64.
  destruct (Qle_bool (2 ^ emax) (Qabs (rnd x))) eqn:E; [|reflexivity].
  apply Qle_bool_iff in E. exfalso. lra.
Qed.

(** Below a finite result every result is finite, and no larger. *)
Lemma round_b64_mono_below (x y vy : Q) :
  0 <= x -> x <= y -> round_b64 y = Finite vy ->
  exists vx, round_b64 x = Finite vx /\ 0 <= vx /\ vx <= vy.
Proof.
  intros Hx Hxy Hy. apply round_b64_finite in Hy as [Ey By].
  pose proof (rnd_mono x y Hx Hxy) as Hm.
  pose proof (rnd_nonneg x Hx) as H0.
  rewrite Qabs_pos in By by lra.
  exists (Qred (rnd x)). split.
  - apply round_b64_small. rewrite Qabs_pos by assumption. lra.
  - rewrite Qred_correct. split; lra.
Qed.

(** Below a representable bound every result is finite, below the bound,
    and results are ordered as their arguments. *)
Lemma round_b64_mono_bounded (B x y : Q) :
  rnd B == B -> B < 2 ^ emax -> 0 <= x -> x <= y -> y <= B ->
  exists vx vy, round_b64 x = Finite vx /\ round_b64 y = Finite vy
                /\ 0 <= vx /\ vx <= vy /\ vy <= B.
Proof.
  intros HB HBm Hx Hxy HyB.
  assert (Hy : 0 <= y) by lra.
  pose proof (rnd_mono y B Hy HyB) as Hm.
  pose proof (rnd_nonneg y Hy) as H0.
  assert (Fy : round_b64 y = Finite (Qred (rnd y))).
  { apply round_b64_small. rewrite Qabs_pos by assumption. lra. }
  destruct (round_b64_mono_below x y _ Hx Hxy Fy) as (vx & Fx & H1 & H2).
  exists vx, (Qred (rnd y)). split; [assumption|]. split; [assumption|].
  rewrite Qred_correct in *. repeat split; try assumption. lra.
Qed.

Lemma rnd_2_1022 : rnd (2 ^ 1022) == 2 ^ 1022.
Proof. apply Qeq_bool_iff. vm_compute. reflexivity. Qed.

Lemma rnd_2_1023 : rnd (2 ^ 1023) == 2 ^ 1023.
Proof. apply Qeq_bool_iff. vm_compute. reflexivity. Qed.

End Rounding.

(** The model computes what the machine computes: quotients, products
    and sums, a tie on a subnormal, an overflow, and the sum that
    [calculate_cost(1000, 500, "gpt-4o-mini")] rounds. *)

Section Binary64Agreement.

Import Binary64.

Example quotient_agrees :
  of_prim (15 / 100000)%float = round_b64 (15 # 100000)
  /\ of_prim (1 / 3)%float = round_b64 (1 # 3)
  /\ of_prim (-1000 / 1000)%float = round_b64 (-1000 # 1000).
Proof. vm_compute. auto. Qed.

Example literal_agrees :
  of_prim (15 / 100000)%float = float_lit 15 (-5)
  /\ of_prim (6 / 10000)%float = float_lit 6 (-4)
  /\ of_prim (45 / 100000)%float = float_lit 45 (-5).
Proof. vm_compute. auto. Qed.

Example product_agrees :
  of_prim ((1 / 10) * (1 / 3))%float
  = fmul (of_prim (1 / 10)%float) (of_prim (1 / 3)%float)
  /\ of_prim ((500 / 1000) * (6 / 10000))%float
     = fmul (of_prim (500 / 1000)%float) (of_prim (6 / 10000)%float).
Proof. vm_compute. auto. Qed.

Example sum_agrees :
  of_prim ((1 / 10) + (2 / 10))%float
  = fadd (of_prim (1 / 10)%float) (of_prim (2 / 10)%float).
Proof. vm_compute. auto. Qed.

Example subnormal_tie_agrees :
  of_prim (0x1p-1074 / 2)%float = round_b64 (2 ^ (-1075))
  /\ of_prim (0x3p-1074 / 2)%float = round_b64 (3 * 2 ^ (-1075)).
Proof. vm_compute. auto. Qed.

Example overflow_agrees :
  of_prim (0x1p1023 * 2)%float
  = fmul (of_prim 0x1p1023%float) (of_prim 2%float).
Proof. vm_compute. auto. Qed.

Example cost_sum_agrees :
  of_prim (1000 / 1000 * (15 / 100000) + 500 / 1000 * (6 / 10000))%float
  = fadd (fmul (round_b64 (1000 # 1000)) (float_lit 15 (-5)))
         (fmul (round_b64 (500 # 1000)) (float_lit 6 (-4))).
Proof. vm_compute. reflexivity. Qed.

(** [round] as Python documents it: [round(2.675, 2)] is [2.67], since the
    float [2.675] lies below the decimal; a tie goes to the even digit. *)
Example round_ndigits_known :
  round_ndigits (float_lit 2675 (-3)) 2 = Ok (float_lit 267 (-2))
  /\ round_ndigits (float_lit 5 (-1)) 0 = Ok (float_lit 0 0)
  /\ round_ndigits (float_lit 15 (-1)) 0 = Ok (float_lit 2 0)
  /\ round_ndigits (float_lit 25 (-1)) 0 = Ok (float_lit 2 0).
Proof. vm_compute. auto. Qed.

(** [1 / 0] and [10**400 / 1000] raise. *)
Example int_truediv_raises :
  int_truediv 1 0 = Raise ZeroDivisionError
  /\ int_truediv (10 ^ 400) 1000 = Raise OverflowError.
Proof. vm_compute. auto. Qed.

End Binary64Agreement.

(** ** calculate_cost *)

Section Cost.

Local Open Scope Q_scope.

(** Every rate of the table is a finite value between 0 and 1/4. *)
Lemma MODEL_COSTS_rates (m : string) (c : model_cost) :
  MODEL_COSTS !! m = Some c ->
  exists vi vo, input c = Finite vi /\ output c = Finite vo
                /\ (0 <= vi /\ vi <= 1 # 4) /\ (0 <= vo /\ vo <= 1 # 4).
Proof.
  intros H. apply elem_of_list_to_map_2 in H.
  repeat (apply elem_of_cons in H as [H|H];
          [ injection H as -> ->; eexists _, _;
            split; [vm_compute; reflexivity|];
            split; [vm_compute; reflexivity|];
            repeat split; unfold Qle; simpl; lia | ]).
  inversion H.
Qed.

Lemma pow10_6_pos : 0 < 10 ^ 6.
Proof. apply Qpower_0_lt. reflexivity. Qed.

(** [round(x, 6)] keeps a value below [2^1023] finite and below [2^1023],
    and is monotone there. *)
Lemma round_ndigits_mono (x y : Q) :
  0 <= x -> x <= y -> y <= 2 ^ 1023 ->
  exists vx vy, round_ndigits (Finite x) 6 = Ok (Finite vx)
                /\ round_ndigits (Finite y) 6 = Ok (Finite vy)
                /\ 0 <= vx /\ vx <= vy.
Proof.
  intros Hx Hxy Hy. pose proof pow10_6_pos as Hp.
  set (rx := round_half_even (x * 10 ^ 6)).
  set (ry := round_half_even (y * 10 ^ 6)).
  assert (H0 : (0 <= rx)%Z).
  { apply (round_half_even_ge_Z _ 0%Z). change (inject_Z 0) with 0.
    apply Qmult_le_0_compat; lra. }
  assert (H1 : (rx <= ry)%Z).
  { apply round_half_even_mono. apply Qmult_le_compat_r; lra. }
  assert (H2 : (ry <= 2 ^ 1023 * 10 ^ 6)%Z).
  { apply round_half_even_le_Z.
    rewrite inject_Z_mult, pow2_Z by lia.
    change (inject_Z (10 ^ 6)) with (10 ^ 6).
    apply Qmult_le_compat_r; lra. }
  rewrite Zle_Qle in H0, H1, H2. change (inject_Z 0) with 0 in H0.
  rewrite inject_Z_mult, pow2_Z in H2 by lia.
  change (inject_Z (10 ^ 6)) with (10 ^ 6) in H2.
  destruct (round_b64_mono_bounded (2 ^ 1023)
              (inject_Z rx / 10 ^ 6) (inject_Z ry / 10 ^ 6))
    as (vx & vy & Fx & Fy & B0 & B1 & B2).
  - exact rnd_2_1023.
  - apply pow2_mono_strict. unfold emax. lia.
  - apply Qle_shift_div_l; [assumption | lra].
  - apply Qle_shift_div_l; [assumption|].
    assert (inject_Z rx / 10 ^ 6 * 10 ^ 6 == inject_Z rx) as -> by (field; lra).
    assumption.
  - apply Qle_shift_div_r; assumption.
  - exists vx, vy. unfold round_ndigits. fold rx ry. rewrite Fx, Fy.
    repeat split; assumption.
Qed.

Lemma pow2_1024 : 2 ^ 1024 == 4 * 2 ^ 1022.
Proof. change 1024%Z with (2 + 1022)%Z. rewrite pow2_add. reflexivity. Qed.

Lemma pow2_1023 : 2 ^ 1023 == 2 * 2 ^ 1022.
Proof. change 1023%Z with (1 + 1022)%Z. rewrite pow2_add. reflexivity. Qed.

Lemma int_truediv_1000 (a : Z) :
  int_truediv a 1000
  = match round_b64 (inject_Z a / 1000) with
    | Finite v => Ok (Finite v)
    | _ => Raise OverflowError
    end.
Proof. reflexivity. Qed.

(** The division step: below a quotient that fits, the quotient fits. *)
Lemma int_truediv_mono (a a' : Z) (X : float) :
  (0 <= a)%Z -> (a <= a')%Z -> int_truediv a' 1000 = Ok X ->
  exists v1 v2, X = Finite v2 /\ int_truediv a 1000 = Ok (Finite v1)
                /\ 0 <= v1 /\ v1 <= v2 /\ v2 < 2 ^ 1024.
Proof.
  intros H0 Hle. rewrite !int_truediv_1000.
  destruct (round_b64 (inject_Z a' / 1000)) as [v2| |] eqn:E2; try discriminate.
  intros [= <-].
  rewrite Zle_Qle in H0, Hle. change (inject_Z 0) with 0 in H0.
  destruct (round_b64_mono_below (inject_Z a / 1000) (inject_Z a' / 1000) v2)
    as (v1 & F1 & B0 & B1); [ | | assumption | ].
  - apply Qle_shift_div_l; [reflexivity | lra].
  - apply Qle_shift_div_l; [reflexivity|].
    assert (inject_Z a / 1000 * 1000 == inject_Z a) as -> by field.
    assumption.
  - exists v1, v2. rewrite F1. repeat split; try assumption.
    apply round_b64_finite in E2 as [Ev Bv].
    apply Qabs_Qlt_condition in Bv. unfold emax in Bv. lra.
Qed.

(** The multiplication by a rate of the table. *)
Lemma fmul_rate_mono (v1 v2 r : Q) :
  0 <= v1 -> v1 <= v2 -> v2 < 2 ^ 1024 -> 0 <= r -> r <= 1 # 4 ->
  exists p1 p2, fmul (Finite v1) (Finite r) = Finite p1
                /\ fmul (Finite v2) (Finite r) = Finite p2
                /\ 0 <= p1 /\ p1 <= p2 /\ p2 <= 2 ^ 1022.
Proof.
  intros H0 H1 H2 R0 R1. pose proof pow2_1024 as P.
  pose proof (pow2_pos 1022) as Pp.
  apply (round_b64_mono_bounded (2 ^ 1022) (v1 * r) (v2 * r)).
  - exact rnd_2_1022.
  - apply pow2_mono_strict. unfold emax. lia.
  - apply Qmult_le_0_compat; assumption.
  - apply Qmult_le_compat_r; assumption.
  - apply Qle_trans with (2 ^ 1024 * (1 # 4)); [|lra].
    apply Qmult_le_compat_nonneg; split; lra.
Qed.

(** The sum of the two costs. *)
Lemma fadd_cost_mono (p1 p2 o : Q) :
  0 <= p1 -> p1 <= p2 -> p2 <= 2 ^ 1022 -> 0 <= o -> o <= 2 ^ 1022 ->
  exists s1 s2, fadd (Finite p1) (Finite o) = Finite s1
                /\ fadd (Finite p2) (Finite o) = Finite s2
                /\ 0 <= s1 /\ s1 <= s2 /\ s2 <= 2 ^ 1023.
Proof.
  intros H0 H1 H2 O0 O1. pose proof pow2_1023 as P.
  apply (round_b64_mono_bounded (2 ^ 1023) (p1 + o) (p2 + o)).
  - exact rnd_2_1023.
  - apply pow2_mono_strict. unfold emax. lia.
  - lra.
  - lra.
  - lra.
Qed.

(** The whole computation, on the rates of one model. *)
Lemma cost_formula_mono (a b delta : Z) (ri ro : Q) (y : float) :
  (0 <= a)%Z -> (0 <= b)%Z -> (0 <= delta)%Z ->
  0 <= ri -> ri <= 1 # 4 -> 0 <= ro -> ro <= 1 # 4 ->
  Spec.cost_formula (a + delta) b (Finite ri) (Finite ro) = Ok y ->
  exists x, Spec.cost_formula a b (Finite ri) (Finite ro) = Ok x
            /\ fle x y = true.
Proof.
  intros Ha Hb Hd Ri0 Ri1 Ro0 Ro1. unfold Spec.cost_formula.
  destruct (int_truediv (a + delta) 1000) as [X|] eqn:EX; [|discriminate].
  destruct (int_truediv b 1000) as [Y|] eqn:EY; [|discriminate].
  destruct (int_truediv_mono a (a + delta) X) as (v1 & v2 & -> & E1 & A0 & A1 & A2);
    [lia | lia | assumption |].
  destruct (int_truediv_mono b b Y) as (w1 & w2 & -> & E2 & B0 & B1 & B2);
    [lia | lia | assumption |].
  rewrite E1. unfold mbind, result_bind.
  destruct (fmul_rate_mono v1 v2 ri) as (p1 & p2 & -> & -> & P0 & P1 & P2);
    try assumption.
  destruct (fmul_rate_mono w2 w2 ro) as (o1 & o2 & _ & -> & O0 & O1 & O2);
    try assumption; try lra.
  destruct (fadd_cost_mono p1 p2 o2) as (s1 & s2 & -> & -> & S0 & S1 & S2);
    try assumption; try lra.
  destruct (round_ndigits_mono s1 s2) as (x1 & x2 & -> & -> & X0 & X1);
    try assumption.
  intros [= <-]. exists (Finite x1). split; [reflexivity|].
  simpl. now apply Qle_bool_iff.
Qed.

End Cost.

(** C2.  A model absent from the table costs [0.0]; a model of the table
    costs [round(input_tokens/1000 * input_rate + output_tokens/1000 *
    output_rate, 6)] at the rates the table gives it; and
    [calculate_cost(1000, 500, "gpt-4o-mini")] is [0.00045]. *)
Theorem calculate_cost_spec (input_tokens output_tokens : Z) (model : string) :
  (MODEL_COSTS !! model = None ->
     calculate_cost input_tokens output_tokens model = Ok (float_lit 0 0))
  /\ (forall costs, MODEL_COSTS !! model = Some costs ->
        calculate_cost input_tokens output_tokens model
        = Spec.cost_formula input_tokens output_tokens
            (input costs) (output costs))
  /\ MODEL_COSTS !! "gpt-4o-mini"
     = Some {| input := float_lit 15 (-5); output := float_lit 6 (-4) |}
  /\ calculate_cost 1000 500 "gpt-4o-mini" = Ok (float_lit 45 (-5)).
Proof.
  split; [|split; [|split]].
  - intros H. unfold calculate_cost. now rewrite H.
  - intros costs H. unfold calculate_cost. now rewrite H.
  - reflexivity.
  - vm_compute. reflexivity.
Qed.

(** On a model of the table the cost is the formula at two finite rates
    between 0 and 1/4. *)
Lemma calculate_cost_formula (model : string) :
  is_Some (MODEL_COSTS !! model) ->
  exists vi vo,
    ((0 <= vi)%Q /\ (vi <= 1 # 4)%Q) /\ ((0 <= vo)%Q /\ (vo <= 1 # 4)%Q)
    /\ forall n b, calculate_cost n b model
                   = Spec.cost_formula n b (Finite vi) (Finite vo).
Proof.
  intros [costs Hc].
  destruct (MODEL_COSTS_rates model costs Hc) as (vi & vo & Ei & Eo & Hi & Ho).
  exists vi, vo. split; [assumption|]. split; [assumption|].
  intros n b. unfold calculate_cost. rewrite Hc, Ei, Eo. reflexivity.
Qed.

(** C9, as the code has it.  For non-negative token counts [a], [b], any
    [delta >= 0] and a model of the table: when the call with [a + delta]
    input tokens returns, the call with [a] returns too, and its cost is no
    larger. *)
Theorem calculate_cost_monotone (a b delta : Z) (model : string) (y : float) :
  0 <= a -> 0 <= b -> 0 <= delta -> is_Some (MODEL_COSTS !! model) ->
  calculate_cost (a + delta) b model = Ok y ->
  Spec.cost_le a b delta model.
Proof.
  intros Ha Hb Hd Hm Hy.
  destruct (calculate_cost_formula model Hm)
    as (vi & vo & [I0 I1] & [O0 O1] & F).
  rewrite F in Hy.
  destruct (cost_formula_mono a b delta vi vo y) as (x & Hx & Hle);
    try assumption.
  exists x, y. rewrite !F. auto.
Qed.

Lemma calculate_cost_monotone_witness : Spec.cost_le 1000 500 1000 "gpt-4o-mini".
Proof.
  eapply (calculate_cost_monotone 1000 500 1000 "gpt-4o-mini");
    [lia | lia | lia | eexists; vm_compute; reflexivity
    | vm_compute; reflexivity].
Defined.

(** C9 as the specification states it fails where the division overflows:
    [calculate_cost(10**400, 0, "gpt-4o-mini")] raises [OverflowError]. *)
Lemma cost_le_overflow :
  calculate_cost 0 0 "gpt-4o-mini" = Ok (float_lit 0 0)
  /\ calculate_cost (0 + 10 ^ 400) 0 "gpt-4o-mini" = Raise OverflowError
  /\ ~ Spec.cost_le 0 0 (10 ^ 400) "gpt-4o-mini".
Proof.
  assert (H : calculate_cost (0 + 10 ^ 400) 0 "gpt-4o-mini" = Raise OverflowError)
    by (vm_compute; reflexivity).
  split; [vm_compute; reflexivity|]. split; [exact H|].
  intros (x & y & _ & Hy & _). rewrite H in Hy. discriminate.
Qed.

(** Token counts up to [10^300] are far from the overflow: the call
    returns. *)
Lemma calculate_cost_returns (a b : Z) (model : string) :
  0 <= a <= 10 ^ 300 -> 0 <= b <= 10 ^ 300 ->
  exists x, calculate_cost a b model = Ok x.
Proof.
  intros Ha Hb. unfold calculate_cost.
  destruct (MODEL_COSTS !! model) as [costs|] eqn:Hc; [|eauto].
  destruct (MODEL_COSTS_rates model costs Hc)
    as (vi & vo & -> & -> & [I0 I1] & [O0 O1]).
  assert (T : forall n, 0 <= n <= 10 ^ 300 ->
                        exists v, int_truediv n 1000 = Ok (Finite v)
                                  /\ (0 <= v)%Q /\ (v < 2 ^ 1024)%Q).
  { intros n Hn.
    assert (E : exists v, int_truediv (10 ^ 300) 1000 = Ok (Finite v)).
    { eexists. vm_compute. reflexivity. }
    destruct E as [v E].
    destruct (int_truediv_mono n (10 ^ 300) _ (proj1 Hn) (proj2 Hn) E)
      as (v1 & v2 & [= <-] & E1 & B0 & B1 & B2).
    exists v1. split; [assumption|]. split; [assumption|].
    eapply Qle_lt_trans; eassumption. }
  destruct (T a Ha) as (va & -> & A0 & A1).
  destruct (T b Hb) as (vb & -> & B0 & B1).
  unfold mbind, result_bind.
  destruct (fmul_rate_mono va va vi) as (p & p' & _ & -> & P0 & P1 & P2);
    try assumption; try apply Qle_refl.
  destruct (fmul_rate_mono vb vb vo) as (o & o' & _ & -> & Q0 & Q1 & Q2);
    try assumption; try apply Qle_refl.
  destruct (fadd_cost_mono p' p' o') as (s & s' & _ & -> & S0 & S1 & S2);
    try assumption; try apply Qle_refl; try lra.
  destruct (round_ndigits_mono s' s') as (x & x' & _ & -> & _);
    try assumption; try apply Qle_refl; try lra.
  eauto.
Qed.

(** Up to [10^300] tokens the comparison of C9 holds as the specification
    states it. *)
Corollary cost_le_bounded (a b delta : Z) (model : string) :
  0 <= a -> 0 <= delta -> a + delta <= 10 ^ 300 -> 0 <= b <= 10 ^ 300 ->
  is_Some (MODEL_COSTS !! model) ->
  Spec.cost_le a b delta model.
Proof.
  intros Ha Hd Hsum Hb Hm.
  destruct (calculate_cost_returns (a + delta) b model) as [y Hy];
    [lia | assumption |].
  destruct (calculate_cost_formula model Hm)
    as (vi & vo & [I0 I1] & [O0 O1] & F).
  rewrite F in Hy.
  destruct (cost_formula_mono a b delta vi vo y) as (x & Hx & Hle);
    try assumption; try lia.
  exists x, y. rewrite !F. auto.
Qed.

(** ** Schema validation *)

Section Validation.

Lemma fails_vap_l {A B : Type} (f : validation (A -> B)) (x : validation A) e :
  fails_with f e -> fails_with (f <*> x) e.
Proof.
  intros (errs & -> & Hin). destruct x as [errs'|a]; simpl.
  - exists (errs ++ errs')%list. split; [reflexivity|].
    apply elem_of_app. now left.
  - now exists errs.
Qed.

Lemma fails_vap_r {A B : Type} (f : validation (A -> B)) (x : validation A) e :
  fails_with x e -> fails_with (f <*> x) e.
Proof.
  intros (errs & -> & Hin). destruct f as [errs'|g]; simpl.
  - exists (errs' ++ errs)%list. split; [reflexivity|].
    apply elem_of_app. now right.
  - now exists errs.
Qed.

Lemma fails_to_result {A : Type} (v : validation A) e :
  fails_with v e ->
  exists errors, to_result v = Raise (ValidationError errors) /\ e ∈ errors.
Proof. intros (errs & -> & Hin). now exists errs. Qed.

Lemma vap_inv {A B : Type} (f : validation (A -> B)) (x : validation A) (b : B) :
  f <*> x = inr b -> exists g a, f = inr g /\ x = inr a /\ b = g a.
Proof.
  destruct f as [e|g], x as [e'|a]; simpl; try discriminate.
  intros [= <-]. eauto.
Qed.

Lemma to_result_inv {A : Type} (v : validation A) (a : A) :
  to_result v = Ok a -> v = inr a.
Proof. destruct v; simpl; [discriminate|]. now intros [= ->]. Qed.

Lemma field_missing {A : Type} kwargs name (validate : validator A) :
  kwargs !! name = None ->
  fails_with (field kwargs name validate None) (name, missing).
Proof.
  intros H. unfold field. rewrite H. eexists. split; [reflexivity|].
  apply list_elem_of_singleton. reflexivity.
Qed.

Lemma field_present {A : Type} kwargs name (validate : validator A) d v a :
  kwargs !! name = Some v -> validate v = inr a ->
  field kwargs name validate d = inr a.
Proof. intros H1 H2. unfold field. now rewrite H1, H2. Qed.

Lemma field_rejected {A : Type} kwargs name (validate : validator A) d v e :
  kwargs !! name = Some v -> validate v = inl e ->
  field kwargs name validate d = inl [(name, e)].
Proof. intros H1 H2. unfold field. now rewrite H1, H2. Qed.

(** A field with a default accepts an argument of its declared type, and
    its absence. *)
Lemma field_default {A : Type} kwargs name (validate : validator A) d t :
  absent_or kwargs name t ->
  (forall v, has_type v t = true -> exists a, validate v = inr a) ->
  exists a, field kwargs name validate (Some d) = inr a.
Proof.
  intros Habs Hval. unfold field.
  destruct (kwargs !! name) as [v|] eqn:E; [|eauto].
  destruct (Hval v (Habs v E)) as [a ->]. eauto.
Qed.

Lemma datetime_typed v :
  has_type v TDatetime = true -> exists a, datetime_validator v = inr a.
Proof. destruct v; try discriminate. simpl. eauto. Qed.

Lemma bool_typed v :
  has_type v TBool = true -> exists a, bool_validator v = inr a.
Proof. destruct v; try discriminate. simpl. eauto. Qed.

Lemma optional_str_typed v :
  has_type v (TOptional TStr) = true ->
  exists a, optional str_validator v = inr a.
Proof. destruct v; try discriminate; simpl; eauto. Qed.

Lemma optional_dict_typed v :
  has_type v (TOptional TDict) = true ->
  exists a, optional dict_validator v = inr a.
Proof. destruct v; try discriminate; simpl; eauto. Qed.

Lemma of_value_value (e : AuditEventType.t) :
  AuditEventType.of_value (AuditEventType.value e) = Some e.
Proof. destruct e; reflexivity. Qed.

(** What an enum field holds is the value of a member. *)
Lemma enum_value_validator_inv v s :
  enum_value_validator v = inr s -> exists e, s = AuditEventType.value e.
Proof.
  destruct v; simpl; try discriminate.
  - destruct (AuditEventType.of_value s0); [|discriminate].
    intros [= <-]. eauto.
  - intros [= <-]. eauto.
Qed.

(** The tag of a member is not its symbolic name. *)
Lemma value_not_name (e : AuditEventType.t) :
  AuditEventType.value e <> AuditEventType.name e.
Proof. destruct e; discriminate. Qed.

(** Construction of an audit event from well-typed arguments. *)
Lemma AuditEventSchema_new_ok now (kwargs : gmap string pyval) eid et c a :
  kwargs !! "event_id" = Some (PStr eid) ->
  kwargs !! "event_type" = Some (PEnum et) ->
  kwargs !! "component" = Some (PStr c) ->
  kwargs !! "action" = Some (PStr a) ->
  absent_or kwargs "timestamp" TDatetime ->
  absent_or kwargs "user_id" (TOptional TStr) ->
  absent_or kwargs "session_id" (TOptional TStr) ->
  absent_or kwargs "success" TBool ->
  absent_or kwargs "details" (TOptional TDict) ->
  absent_or kwargs "metadata" (TOptional TDict) ->
  exists r, AuditEventSchema_new now kwargs = Ok r
            /\ event_id r = eid /\ event_type r = AuditEventType.value et
            /\ component r = c /\ action r = a.
Proof.
  intros H1 H2 H3 H4 T1 T2 T3 T4 T5 T6. unfold AuditEventSchema_new.
  rewrite (field_present _ "event_id" _ _ _ eid H1 eq_refl).
  rewrite (field_present _ "event_type" _ _ _ (AuditEventType.value et) H2 eq_refl).
  rewrite (field_present _ "component" _ _ _ c H3 eq_refl).
  rewrite (field_present _ "action" _ _ _ a H4 eq_refl).
  destruct (field_default _ _ datetime_validator now _ T1 datetime_typed) as [? ->].
  destruct (field_default _ _ (optional str_validator) None _ T2 optional_str_typed) as [? ->].
  destruct (field_default _ _ (optional str_validator) None _ T3 optional_str_typed) as [? ->].
  destruct (field_default _ _ bool_validator true _ T4 bool_typed) as [? ->].
  destruct (field_default _ _ (optional dict_validator) None _ T5 optional_dict_typed) as [? ->].
  destruct (field_default _ _ (optional dict_validator) None _ T6 optional_dict_typed) as [? ->].
  simpl. eauto 10.
Qed.

(** A required field that is absent is reported missing. *)
Lemma AuditEventSchema_new_missing now (kwargs : gmap string pyval) name :
  name ∈ ["event_id"; "event_type"; "component"; "action"] ->
  kwargs !! name = None ->
  exists errors,
    AuditEventSchema_new now kwargs = Raise (ValidationError errors)
    /\ (name, missing) ∈ errors.
Proof.
  intros Hin Hnone. unfold AuditEventSchema_new. apply fails_to_result.
  repeat (apply elem_of_cons in Hin as [->|Hin];
          [ repeat first [ apply fails_vap_r; apply field_missing; assumption
                         | apply fails_vap_l ] | ]).
  inversion Hin.
Qed.

End Validation.

(** ** AuditEventSchema *)

(** C5, as the code has it.  [event_id], [component] and [action] are
    required strings with no constraint on their length: when they are
    strings (empty or not) and the other arguments are well typed,
    construction succeeds and the record holds them unchanged. *)
Theorem AuditEventSchema_accepts_strings now (kwargs : gmap string pyval)
    eid et c a :
  kwargs !! "event_id" = Some (PStr eid) ->
  kwargs !! "event_type" = Some (PEnum et) ->
  kwargs !! "component" = Some (PStr c) ->
  kwargs !! "action" = Some (PStr a) ->
  absent_or kwargs "timestamp" TDatetime ->
  absent_or kwargs "user_id" (TOptional TStr) ->
  absent_or kwargs "session_id" (TOptional TStr) ->
  absent_or kwargs "success" TBool ->
  absent_or kwargs "details" (TOptional TDict) ->
  absent_or kwargs "metadata" (TOptional TDict) ->
  exists r, AuditEventSchema_new now kwargs = Ok r
            /\ event_id r = eid /\ component r = c /\ action r = a.
Proof.
  intros H1 H2 H3 H4 T1 T2 T3 T4 T5 T6.
  destruct (AuditEventSchema_new_ok now kwargs eid et c a)
    as (r & Hr & E1 & _ & E3 & E4); try assumption.
  exists r. auto.
Qed.

Ltac absent := intros ? Habsent; vm_compute in Habsent; discriminate Habsent.

Lemma AuditEventSchema_accepts_strings_witness :
  exists r, AuditEventSchema_new Samples.clock Samples.empty_strings = Ok r
            /\ event_id r = "" /\ component r = "" /\ action r = "".
Proof.
  apply (AuditEventSchema_accepts_strings Samples.clock Samples.empty_strings
           "" AuditEventType.USER_QUERY "" "");
    try reflexivity; absent.
Defined.

(** C5 as the specification states it fails: an event whose [event_id],
    [component] and [action] are all empty is constructed. *)
Lemma empty_strings_accepted :
  AuditEventSchema_new Samples.clock Samples.empty_strings
  = Ok {| event_id := ""; event_type := "user_query";
          timestamp := Samples.clock; component := ""; action := "";
          user_id := None; session_id := None; success := true;
          details := None; metadata := None |}
  /\ ~ Spec.rejects_empty_strings.
Proof.
  split; [reflexivity|].
  intros H.
  destruct (H Samples.clock Samples.empty_strings (or_introl eq_refl))
    as [errors E].
  vm_compute in E. discriminate E.
Qed.

(** C6.  When one of [event_id], [event_type], [component], [action] is
    absent, construction raises [ValidationError] and reports that field
    missing; an event without [component] is rejected; and when the four
    are present and every argument is of its field's type, construction
    succeeds. *)
Theorem AuditEventSchema_required_fields now (kwargs : gmap string pyval) :
  (forall name,
      name ∈ ["event_id"; "event_type"; "component"; "action"] ->
      kwargs !! name = None ->
      exists errors,
        AuditEventSchema_new now kwargs = Raise (ValidationError errors)
        /\ (name, missing) ∈ errors)
  /\ AuditEventSchema_new now Samples.no_component
     = Raise (ValidationError [("component", missing)])
  /\ (forall eid et c a,
        kwargs !! "event_id" = Some (PStr eid) ->
        kwargs !! "event_type" = Some (PEnum et) ->
        kwargs !! "component" = Some (PStr c) ->
        kwargs !! "action" = Some (PStr a) ->
        absent_or kwargs "timestamp" TDatetime ->
        absent_or kwargs "user_id" (TOptional TStr) ->
        absent_or kwargs "session_id" (TOptional TStr) ->
        absent_or kwargs "success" TBool ->
        absent_or kwargs "details" (TOptional TDict) ->
        absent_or kwargs "metadata" (TOptional TDict) ->
        exists r, AuditEventSchema_new now kwargs = Ok r).
Proof.
  split; [|split].
  - intros name. apply AuditEventSchema_new_missing.
  - reflexivity.
  - intros eid et c a H1 H2 H3 H4 T1 T2 T3 T4 T5 T6.
    destruct (AuditEventSchema_new_ok now kwargs eid et c a) as (r & Hr & _);
      try assumption.
    eauto.
Qed.

Lemma AuditEventSchema_required_fields_witness :
  exists errors,
    AuditEventSchema_new Samples.clock Samples.no_component
    = Raise (ValidationError errors)
    /\ ("component", missing) ∈ errors.
Proof.
  apply (proj1 (AuditEventSchema_required_fields Samples.clock
                  Samples.no_component) "component").
  - repeat constructor.
  - reflexivity.
Defined.

(** ** CostTrackingSchema *)

Section CostTracking.

Lemma float_zero : float_lit 0 0 = Finite 0.
Proof. vm_compute. reflexivity. Qed.

(** Off NaN, [x < 0.0] is the negation of [0.0 <= x]. *)
Lemma flt_zero (x : float) :
  x <> NaN -> flt x (float_lit 0 0) = negb (fle (float_lit 0 0) x).
Proof. rewrite float_zero. destruct x; [reflexivity | reflexivity | congruence]. Qed.

(** The validation of a cost record whose arguments are well typed: only
    the four bounds remain to be checked. *)
Lemma CostTrackingSchema_new_typed now (kwargs : gmap string pyval)
    eid m it ot tt c :
  kwargs !! "event_id" = Some (PStr eid) ->
  kwargs !! "model" = Some (PStr m) ->
  kwargs !! "input_tokens" = Some (PInt it) ->
  kwargs !! "output_tokens" = Some (PInt ot) ->
  kwargs !! "total_tokens" = Some (PInt tt) ->
  kwargs !! "cost_usd" = Some (PFloat c) ->
  absent_or kwargs "timestamp" TDatetime ->
  absent_or kwargs "component" (TOptional TStr) ->
  absent_or kwargs "session_id" (TOptional TStr) ->
  exists ts comp sess,
    CostTrackingSchema_new now kwargs
    = to_result
        (valid Build_CostTrackingSchema
           <*> inr eid <*> inr ts <*> inr m
           <*> (if 0 <=? it then inr it else inl (ge_error "input_tokens"))
           <*> (if 0 <=? ot then inr ot else inl (ge_error "output_tokens"))
           <*> (if 0 <=? tt then inr tt else inl (ge_error "total_tokens"))
           <*> (if fle (float_lit 0 0) c then inr c
                else inl (ge_error "cost_usd"))
           <*> inr comp <*> inr sess).
Proof.
  intros H1 H2 H3 H4 H5 H6 T1 T2 T3. unfold CostTrackingSchema_new.
  destruct (field_default _ _ datetime_validator now _ T1 datetime_typed)
    as [ts ->].
  destruct (field_default _ _ (optional str_validator) None _ T2 optional_str_typed)
    as [comp ->].
  destruct (field_default _ _ (optional str_validator) None _ T3 optional_str_typed)
    as [sess ->].
  exists ts, comp, sess.
  rewrite (field_present _ "event_id" _ _ _ eid H1 eq_refl).
  rewrite (field_present _ "model" _ _ _ m H2 eq_refl).
  unfold field. rewrite H3, H4, H5, H6. unfold int_ge, float_ge, int_validator,
    float_validator, ge_error.
  destruct (0 <=? it), (0 <=? ot), (0 <=? tt), (fle (float_lit 0 0) c);
    reflexivity.
Qed.

Lemma int_ge_inv bound v n :
  int_ge bound int_validator v = inr n -> v = PInt n /\ bound <= n.
Proof.
  unfold int_ge, int_validator. destruct v; try discriminate.
  destruct (Z.leb_spec bound n0); [|discriminate].
  intros [= <-]. auto.
Qed.

Lemma float_ge_inv bound v x :
  float_ge bound float_validator v = inr x -> fle bound x = true.
Proof.
  unfold float_ge. destruct (float_validator v) as [|y]; [discriminate|].
  destruct (fle bound y) eqn:E; [|discriminate]. now intros [= <-].
Qed.

Lemma field_inv {A : Type} kwargs name (validate : validator A) d a :
  field kwargs name validate d = inr a ->
  (exists v, kwargs !! name = Some v /\ validate v = inr a)
  \/ (kwargs !! name = None /\ d = Some a).
Proof.
  unfold field. destruct (kwargs !! name) as [v|].
  - destruct (validate v) eqn:E; [discriminate|]. intros [= <-]. eauto.
  - destruct d; [|discriminate]. intros [= <-]. auto.
Qed.

Lemma field_required_inv {A : Type} kwargs name (validate : validator A) a :
  field kwargs name validate None = inr a ->
  exists v, kwargs !! name = Some v /\ validate v = inr a.
Proof.
  intros H. apply field_inv in H as [H|[_ H]]; [assumption | discriminate].
Qed.

End CostTracking.

(** The fields of a record that construction returned. *)
Ltac invert_new H :=
  apply to_result_inv in H;
  repeat (let g := fresh "g" in
          let a := fresh "a" in
          let Hf := fresh "Hf" in
          let Hg := fresh "Hg" in
          apply vap_inv in H as (g & a & H & Hf & Hg));
  injection H as H; subst.

(** Every constructed cost record has non-negative counts and cost. *)
Lemma CostTrackingSchema_invariant now (kwargs : gmap string pyval) r :
  CostTrackingSchema_new now kwargs = Ok r ->
  0 <= input_tokens r /\ 0 <= output_tokens r /\ 0 <= total_tokens r
  /\ fle (float_lit 0 0) (cost_usd r) = true.
Proof.
  intros H. unfold CostTrackingSchema_new in H. invert_new H. simpl.
  repeat match goal with
         | Hf : field _ _ (int_ge _ _) None = inr _ |- _ =>
             apply field_required_inv in Hf as (? & _ & Hf);
             apply int_ge_inv in Hf as [_ Hf]
         | Hf : field _ _ (float_ge _ _) None = inr _ |- _ =>
             apply field_required_inv in Hf as (? & _ & Hf);
             apply float_ge_inv in Hf
         end.
  auto.
Qed.

(** C3 as the specification states it fails at a cost that is not a number:
    NaN is not less than [0.0] and no token count of [Samples.with_cost NaN]
    is negative, yet the bound [ge=0.0] of [cost_usd] refuses the record. *)
Lemma nan_cost_rejected :
  flt NaN (float_lit 0 0) = false
  /\ CostTrackingSchema_new Samples.clock (Samples.with_cost NaN)
     = Raise (ValidationError [("cost_usd", greater_than_equal)])
  /\ ~ Spec.rejects_exactly_negative.
Proof.
  split; [reflexivity|]. split; [reflexivity|].
  intros H.
  destruct (H Samples.clock (Samples.with_cost NaN)
              "EVT_COST_002" "gpt-4o-mini" 0 0 0 NaN) as [_ Hs];
    try reflexivity; try absent.
  destruct Hs as [r Hr].
  - vm_compute. intros [G|[G|[G|G]]]; discriminate G.
  - vm_compute in Hr. discriminate Hr.
Qed.

(** C3, as the code has it.  For arguments of the right types, whatever
    float the cost is: construction raises [ValidationError] when a token
    count is negative or [cost_usd >= 0.0] does not hold (the cost is below
    [0.0], or is not a number), and otherwise succeeds, keeping the counts
    and the cost as given, whatever [total_tokens] is; every record
    constructed satisfies [input_tokens >= 0], [output_tokens >= 0],
    [total_tokens >= 0] and [cost_usd >= 0.0].  For a cost that is a
    number, [cost_usd >= 0.0] fails exactly when [cost_usd < 0.0]. *)
Theorem CostTrackingSchema_non_negative now (kwargs : gmap string pyval)
    eid m it ot tt c :
  kwargs !! "event_id" = Some (PStr eid) ->
  kwargs !! "model" = Some (PStr m) ->
  kwargs !! "input_tokens" = Some (PInt it) ->
  kwargs !! "output_tokens" = Some (PInt ot) ->
  kwargs !! "total_tokens" = Some (PInt tt) ->
  kwargs !! "cost_usd" = Some (PFloat c) ->
  absent_or kwargs "timestamp" TDatetime ->
  absent_or kwargs "component" (TOptional TStr) ->
  absent_or kwargs "session_id" (TOptional TStr) ->
  (it < 0 \/ ot < 0 \/ tt < 0 \/ fle (float_lit 0 0) c = false ->
     exists errors,
       CostTrackingSchema_new now kwargs = Raise (ValidationError errors))
  /\ (~ (it < 0 \/ ot < 0 \/ tt < 0 \/ fle (float_lit 0 0) c = false) ->
        exists r, CostTrackingSchema_new now kwargs = Ok r
                  /\ input_tokens r = it /\ output_tokens r = ot
                  /\ total_tokens r = tt /\ cost_usd r = c)
  /\ (forall r, CostTrackingSchema_new now kwargs = Ok r ->
        0 <= input_tokens r /\ 0 <= output_tokens r /\ 0 <= total_tokens r
        /\ fle (float_lit 0 0) (cost_usd r) = true)
  /\ (c <> NaN ->
        (fle (float_lit 0 0) c = false <-> flt c (float_lit 0 0) = true)).
Proof.
  intros H1 H2 H3 H4 H5 H6 T1 T2 T3.
  destruct (CostTrackingSchema_new_typed now kwargs eid m it ot tt c)
    as (ts & comp & sess & E); try assumption.
  split; [|split; [|split]].
  - intros Hneg. rewrite E.
    destruct (Z.leb_spec 0 it), (Z.leb_spec 0 ot), (Z.leb_spec 0 tt),
      (fle (float_lit 0 0) c); simpl; eauto;
      exfalso; destruct Hneg as [?|[?|[?|?]]]; try lia; discriminate.
  - intros Hpos. rewrite E.
    destruct (Z.leb_spec 0 it), (Z.leb_spec 0 ot), (Z.leb_spec 0 tt),
      (fle (float_lit 0 0) c); simpl; eauto 10;
      exfalso; apply Hpos; auto.
  - apply CostTrackingSchema_invariant.
  - intros Hnan. rewrite (flt_zero c Hnan).
    destruct (fle (float_lit 0 0) c); simpl; split; congruence.
Qed.

Lemma CostTrackingSchema_non_negative_witness :
  exists r, CostTrackingSchema_new Samples.clock Samples.odd_total = Ok r
            /\ input_tokens r = 1000 /\ output_tokens r = 500
            /\ total_tokens r = 7 /\ cost_usd r = float_lit 45 (-5).
Proof.
  apply (CostTrackingSchema_non_negative Samples.clock Samples.odd_total
           "EVT_COST_001" "gpt-4o-mini" 1000 500 7 (float_lit 45 (-5)));
    try reflexivity; try absent.
  vm_compute. intros [H|[H|[H|H]]]; discriminate H.
Defined.

(** C10.  [calculate_cost] does not validate its token arguments:
    [calculate_cost(-1000, 0, "gpt-4o-mini")] returns [-0.00015], a value
    below [0.0], which [CostTrackingSchema] rejects as a cost. *)
Theorem calculate_cost_negative_tokens :
  calculate_cost (-1000) 0 "gpt-4o-mini" = Ok (float_lit (-15) (-5))
  /\ flt (float_lit (-15) (-5)) (float_lit 0 0) = true
  /\ forall now,
       CostTrackingSchema_new now (Samples.with_cost (float_lit (-15) (-5)))
       = Raise (ValidationError [("cost_usd", greater_than_equal)]).
Proof.
  split; [|split].
  - vm_compute. reflexivity.
  - vm_compute. reflexivity.
  - intros now. vm_compute. reflexivity.
Qed.

(** ** Serialization *)

Section RoundTrip.

Lemma optional_str_of_option (o : option string) :
  optional str_validator (of_option PStr o) = inr o.
Proof. destruct o; reflexivity. Qed.

Lemma optional_dict_of_option (o : option (list (string * pyval))) :
  optional dict_validator (of_option PDict o) = inr o.
Proof. destruct o; reflexivity. Qed.

Lemma enum_value_of_value (e : AuditEventType.t) :
  enum_value_validator (PStr (AuditEventType.value e))
  = inr (AuditEventType.value e).
Proof. simpl. now rewrite of_value_value. Qed.

Lemma int_ge_accepts (bound n : Z) :
  bound <= n -> int_ge bound int_validator (PInt n) = inr n.
Proof.
  intros H. unfold int_ge, int_validator.
  destruct (Z.leb_spec bound n); [reflexivity | lia].
Qed.

Lemma float_ge_accepts (bound x : float) :
  fle bound x = true -> float_ge bound float_validator (PFloat x) = inr x.
Proof. intros H. unfold float_ge, float_validator. now rewrite H. Qed.

Lemma AuditEventSchema_round_trip now now' (kwargs : gmap string pyval) r :
  AuditEventSchema_new now kwargs = Ok r ->
  AuditEventSchema_new now' (AuditEventSchema_model_dump r) = Ok r
  /\ exists e, AuditEventSchema_model_dump r !! "event_type"
               = Some (PStr (AuditEventType.value e)).
Proof.
  intros H. unfold AuditEventSchema_new in H. invert_new H.
  match goal with
  | Hf : field _ "event_type" _ _ = inr _ |- _ =>
      apply field_required_inv in Hf as (v & _ & Hf);
      apply enum_value_validator_inv in Hf as [e ->]
  end.
  split; [|exists e; reflexivity].
  unfold AuditEventSchema_new.
  erewrite (field_present _ "event_id"); [|reflexivity|reflexivity].
  erewrite (field_present _ "event_type");
    [|reflexivity|apply enum_value_of_value].
  erewrite (field_present _ "timestamp"); [|reflexivity|reflexivity].
  erewrite (field_present _ "component"); [|reflexivity|reflexivity].
  erewrite (field_present _ "action"); [|reflexivity|reflexivity].
  erewrite (field_present _ "user_id");
    [|reflexivity|apply optional_str_of_option].
  erewrite (field_present _ "session_id");
    [|reflexivity|apply optional_str_of_option].
  erewrite (field_present _ "success"); [|reflexivity|reflexivity].
  erewrite (field_present _ "details");
    [|reflexivity|apply optional_dict_of_option].
  erewrite (field_present _ "metadata");
    [|reflexivity|apply optional_dict_of_option].
  reflexivity.
Qed.

Lemma CostTrackingSchema_round_trip now now' (kwargs : gmap string pyval) r :
  CostTrackingSchema_new now kwargs = Ok r ->
  CostTrackingSchema_new now' (CostTrackingSchema_model_dump r) = Ok r.
Proof.
  intros H.
  destruct (CostTrackingSchema_invariant now kwargs r H) as (I1 & I2 & I3 & I4).
  unfold CostTrackingSchema_new in H. invert_new H. simpl in I1, I2, I3, I4.
  unfold CostTrackingSchema_new.
  erewrite (field_present _ "event_id"); [|reflexivity|reflexivity].
  erewrite (field_present _ "timestamp"); [|reflexivity|reflexivity].
  erewrite (field_present _ "model"); [|reflexivity|reflexivity].
  erewrite (field_present _ "input_tokens");
    [|reflexivity|apply int_ge_accepts; eassumption].
  erewrite (field_present _ "output_tokens");
    [|reflexivity|apply int_ge_accepts; eassumption].
  erewrite (field_present _ "total_tokens");
    [|reflexivity|apply int_ge_accepts; eassumption].
  erewrite (field_present _ "cost_usd");
    [|reflexivity|apply float_ge_accepts; eassumption].
  erewrite (field_present _ "component");
    [|reflexivity|apply optional_str_of_option].
  erewrite (field_present _ "session_id");
    [|reflexivity|apply optional_str_of_option].
  reflexivity.
Qed.

Lemma GovernanceLogEntry_round_trip now now' (kwargs : gmap string pyval) r :
  GovernanceLogEntry_new now kwargs = Ok r ->
  GovernanceLogEntry_new now' (GovernanceLogEntry_model_dump r) = Ok r.
Proof.
  intros H. unfold GovernanceLogEntry_new in H. invert_new H.
  unfold GovernanceLogEntry_new.
  erewrite (field_present _ "timestamp"); [|reflexivity|reflexivity].
  erewrite (field_present _ "component"); [|reflexivity|reflexivity].
  erewrite (field_present _ "action"); [|reflexivity|reflexivity].
  erewrite (field_present _ "success"); [|reflexivity|reflexivity].
  erewrite (field_present _ "details");
    [|reflexivity|apply optional_str_of_option].
  reflexivity.
Qed.

(** What a constructed audit event holds as [event_type] is what the enum
    validator makes of the argument given under that name. *)
Lemma AuditEventSchema_event_type_stored now (kwargs : gmap string pyval) v r :
  kwargs !! "event_type" = Some v ->
  AuditEventSchema_new now kwargs = Ok r ->
  enum_value_validator v = inr (event_type r).
Proof.
  intros Hv H. unfold AuditEventSchema_new in H. invert_new H. simpl.
  match goal with
  | Hf : field _ "event_type" _ _ = inr _ |- _ =>
      apply field_required_inv in Hf as (v' & Hv' & Hf)
  end.
  congruence.
Qed.

(** The dump of an audit event has the record's [event_type], a string,
    under ["event_type"]. *)
Lemma AuditEventSchema_model_dump_event_type (r : AuditEventSchema) :
  AuditEventSchema_model_dump r !! "event_type" = Some (PStr (event_type r)).
Proof. reflexivity. Qed.

End RoundTrip.

(** C4.  For each of the three schemas: a record constructed from a map,
    dumped to a map and constructed again from the dump (at any later
    time) is the same record, field by field.  The enum field of a dumped
    audit event is a string, the string tag of the member the event was
    constructed with: constructed with the member [e], the event holds and
    dumps [e.value] (["ai_response"] for [AI_RESPONSE]), which is never the
    symbolic name [e.name]; constructed with a tag given as a string, it
    dumps that very string. *)
Theorem model_dump_round_trip now now' (kwargs : gmap string pyval) :
  (forall r, AuditEventSchema_new now kwargs = Ok r ->
     AuditEventSchema_new now' (AuditEventSchema_model_dump r) = Ok r
     /\ AuditEventSchema_model_dump r !! "event_type"
        = Some (PStr (event_type r))
     /\ (forall e, kwargs !! "event_type" = Some (PEnum e) ->
           event_type r = AuditEventType.value e
           /\ AuditEventSchema_model_dump r !! "event_type"
              = Some (PStr (AuditEventType.value e))
           /\ AuditEventSchema_model_dump r !! "event_type"
              <> Some (PStr (AuditEventType.name e)))
     /\ (forall s, kwargs !! "event_type" = Some (PStr s) ->
           AuditEventSchema_model_dump r !! "event_type" = Some (PStr s)
           /\ exists e, s = AuditEventType.value e)
     /\ exists e, AuditEventSchema_model_dump r !! "event_type"
                  = Some (PStr (AuditEventType.value e))
                  /\ AuditEventType.value e <> AuditEventType.name e)
  /\ (forall r, CostTrackingSchema_new now kwargs = Ok r ->
        CostTrackingSchema_new now' (CostTrackingSchema_model_dump r) = Ok r)
  /\ (forall r, GovernanceLogEntry_new now kwargs = Ok r ->
        GovernanceLogEntry_new now' (GovernanceLogEntry_model_dump r) = Ok r)
  /\ (exists r, AuditEventSchema_new now Samples.empty_strings = Ok r
                /\ AuditEventSchema_model_dump r !! "event_type"
                   = Some (PStr "user_query"))
  /\ (exists r, AuditEventSchema_new now
                  (<["event_type" := PEnum AuditEventType.AI_RESPONSE]>
                     Samples.required_only) = Ok r
                /\ AuditEventSchema_model_dump r !! "event_type"
                   = Some (PStr "ai_response")).
Proof.
  split; [|split; [|split; [|split]]].
  - intros r H.
    destruct (AuditEventSchema_round_trip now now' kwargs r H) as [H1 [e H2]].
    split; [assumption|].
    split; [apply AuditEventSchema_model_dump_event_type|].
    split; [|split].
    + intros e' He'.
      pose proof (AuditEventSchema_event_type_stored now kwargs _ r He' H)
        as Hs.
      simpl in Hs. injection Hs as Hs.
      rewrite AuditEventSchema_model_dump_event_type, <- Hs.
      split; [reflexivity|]. split; [reflexivity|].
      intros [= Hn]. exact (value_not_name e' Hn).
    + intros s Hs.
      pose proof (AuditEventSchema_event_type_stored now kwargs _ r Hs H)
        as Hv.
      simpl in Hv.
      destruct (AuditEventType.of_value s) as [e'|] eqn:E; [|discriminate Hv].
      injection Hv as Hv.
      unfold AuditEventType.of_value in E.
      apply find_some in E as [_ E]. apply String.eqb_eq in E.
      rewrite AuditEventSchema_model_dump_event_type, <- Hv, E.
      split; [reflexivity|]. exists e'. now rewrite E.
    + exists e. split; [assumption | apply value_not_name].
  - intros r. apply CostTrackingSchema_round_trip.
  - intros r. apply GovernanceLogEntry_round_trip.
  - eexists. split; reflexivity.
  - eexists. split; reflexivity.
Qed.

Lemma model_dump_round_trip_witness :
  exists r,
    CostTrackingSchema_new Samples.clock Samples.odd_total = Ok r
    /\ CostTrackingSchema_new Samples.clock (CostTrackingSchema_model_dump r)
       = Ok r.
Proof.
  eexists. split; [vm_compute; reflexivity|].
  apply (proj1 (proj2 (model_dump_round_trip Samples.clock Samples.clock
                         Samples.odd_total))).
  vm_compute. reflexivity.
Defined.

(** ** The governance log *)

Section GovernanceLog.

Implicit Types st : gmap string (list GovernanceLogEntry).

Lemma init_governance_state_logs st :
  init_governance_state st !! "governance_logs"
  = Some (default [] (st !! "governance_logs")).
Proof.
  unfold init_governance_state.
  destruct (st !! "governance_logs") as [l|] eqn:E; simpl.
  - assumption.
  - apply lookup_insert_eq.
Qed.

Lemma init_governance_state_other st k :
  k <> "governance_logs" -> init_governance_state st !! k = st !! k.
Proof.
  intros Hk. unfold init_governance_state.
  destruct (st !! "governance_logs"); [reflexivity|].
  now apply lookup_insert_ne.
Qed.

(** Initialisation is idempotent and keeps an existing sequence. *)
Lemma init_governance_state_idem st :
  init_governance_state (init_governance_state st) = init_governance_state st.
Proof.
  unfold init_governance_state at 1.
  now rewrite init_governance_state_logs.
Qed.

Lemma GovernanceLogEntry_new_args now c a s d :
  GovernanceLogEntry_new now
    (list_to_map
       [ ("timestamp", PDatetime now); ("component", PStr c);
         ("action", PStr a); ("success", PBool s);
         ("details", of_option PStr d) ])
  = Ok {| log_timestamp := now; log_component := c; log_action := a;
          log_success := s; log_details := d |}.
Proof. destruct d; reflexivity. Qed.

Lemma add_governance_log_eq now c a s d st :
  let entry := {| log_timestamp := now; log_component := c; log_action := a;
                  log_success := s; log_details := d |} in
  add_governance_log now c a s d st
  = Ok (<["governance_logs" := (default [] (st !! "governance_logs") ++ [entry])%list]>
          (init_governance_state st), entry).
Proof.
  intros entry. unfold add_governance_log.
  rewrite GovernanceLogEntry_new_args. unfold mbind, result_bind.
  now rewrite init_governance_state_logs.
Qed.

Lemma append_all_eq calls st :
  exists st',
    Spec.append_all calls st = Ok (st', map Spec.entry_of_call calls)
    /\ default [] (st' !! "governance_logs")
       = (default [] (st !! "governance_logs")
          ++ map Spec.entry_of_call calls)%list.
Proof.
  revert st; induction calls as [|c calls IH]; intros st.
  - exists st. simpl. now rewrite app_nil_r.
  - simpl. rewrite add_governance_log_eq. unfold mbind, result_bind.
    cbn [fst snd].
    match goal with
    | |- context [Spec.append_all calls ?s] => destruct (IH s) as (st' & -> & E)
    end.
    exists st'. cbn [fst snd]. split; [reflexivity|].
    rewrite E, lookup_insert_eq. simpl. now rewrite <- app_assoc.
Qed.

Lemma render_governance_panel_eq now title st :
  render_governance_panel now title st
  = (init_governance_state st,
     Subheader title ::
     match default [] (st !! "governance_logs") with
     | [] => [ Caption "No governance events recorded yet." ]
     | logs =>
         [ Caption ("Showing " ++ pretty (length logs) ++ " event(s)");
           Container (flat_map (_render_log_entry now) (reverse logs)) ]
     end).
Proof.
  unfold render_governance_panel. rewrite init_governance_state_logs.
  cbn [default from_option]. now destruct (default [] (st !! "governance_logs")).
Qed.

End GovernanceLog.

(** C8.  Whatever the session holds, [add_governance_log] returns: the
    entry it returns carries the arguments and the time of the call, the
    sequence afterwards is the sequence before (empty when there was none)
    followed by that entry, and no other slot of the session changes. *)
Theorem add_governance_log_appends now c a s d
    (st : gmap string (list GovernanceLogEntry)) :
  exists entry st',
    add_governance_log now c a s d st = Ok (st', entry)
    /\ log_component entry = c /\ log_action entry = a
    /\ log_success entry = s /\ log_details entry = d
    /\ log_timestamp entry = now
    /\ st' !! "governance_logs"
       = Some (default [] (st !! "governance_logs") ++ [entry])%list
    /\ (forall k, k <> "governance_logs" -> st' !! k = st !! k)
    /\ (st !! "governance_logs" = None ->
          init_governance_state st !! "governance_logs" = Some []
          /\ st' !! "governance_logs" = Some [entry]).
Proof.
  eexists _, _. split; [apply add_governance_log_eq|].
  do 5 (split; [reflexivity|]). split; [|split].
  - apply lookup_insert_eq.
  - intros k Hk. rewrite lookup_insert_ne by congruence.
    now apply init_governance_state_other.
  - intros Hnone. split.
    + rewrite init_governance_state_logs, Hnone. reflexivity.
    + rewrite lookup_insert_eq, Hnone. reflexivity.
Qed.

(** C7.  After any sequence of appends, the panel shows the entries newest
    first: the entries of the calls in reverse order of the calls, and then
    what the session held before, reversed.  After the appends [A], [B],
    [C] on a fresh session the panel shows [C], [B], [A]. *)
Theorem governance_panel_newest_first calls now title
    (st : gmap string (list GovernanceLogEntry)) :
  (exists st',
      Spec.append_all calls st = Ok (st', map Spec.entry_of_call calls)
      /\ (render_governance_panel now title st').2
         = Subheader title ::
           match (default [] (st !! "governance_logs")
                  ++ map Spec.entry_of_call calls)%list with
           | [] => [ Caption "No governance events recorded yet." ]
           | logs =>
               [ Caption ("Showing " ++ pretty (length logs) ++ " event(s)");
                 Container
                   (flat_map (_render_log_entry now)
                      (reverse (map Spec.entry_of_call calls))
                    ++ flat_map (_render_log_entry now)
                         (reverse (default [] (st !! "governance_logs"))))%list ]
           end)
  /\ (exists st',
        Spec.append_all [SampleCalls.A; SampleCalls.B; SampleCalls.C] ∅
        = Ok (st', map Spec.entry_of_call
                     [SampleCalls.A; SampleCalls.B; SampleCalls.C])
        /\ (render_governance_panel now title st').2
           = [ Subheader title;
               Caption "Showing 3 event(s)";
               Container
                 (_render_log_entry now (Spec.entry_of_call SampleCalls.C)
                  ++ _render_log_entry now (Spec.entry_of_call SampleCalls.B)
                  ++ _render_log_entry now (Spec.entry_of_call SampleCalls.A))%list ]).
Proof.
  assert (G : forall calls st,
             exists st',
               Spec.append_all calls st = Ok (st', map Spec.entry_of_call calls)
               /\ (render_governance_panel now title st').2
                  = Subheader title ::
                    match (default [] (st !! "governance_logs")
                           ++ map Spec.entry_of_call calls)%list with
                    | [] => [ Caption "No governance events recorded yet." ]
                    | logs =>
                        [ Caption ("Showing " ++ pretty (length logs) ++ " event(s)");
                          Container
                            (flat_map (_render_log_entry now)
                               (reverse (map Spec.entry_of_call calls))
                             ++ flat_map (_render_log_entry now)
                                  (reverse (default [] (st !! "governance_logs"))))%list ]
                    end).
  { intros cs s0. destruct (append_all_eq cs s0) as (st' & E & L).
    exists st'. split; [assumption|].
    rewrite render_governance_panel_eq. cbn [snd]. rewrite L.
    destruct (default [] (s0 !! "governance_logs") ++ map Spec.entry_of_call cs)%list
      eqn:El; [reflexivity|].
    rewrite <- El, reverse_app, flat_map_app. reflexivity. }
  split; [apply G|].
  destruct (G [SampleCalls.A; SampleCalls.B; SampleCalls.C] ∅) as (st' & E & R).
  exists st'. split; [assumption|]. rewrite R. reflexivity.
Qed.

(** * Further properties *)

(** ** Rounding, on both signs *)

Section RoundingSigned.

Local Open Scope Q_scope.

Lemma Qfloor_unique (y : Q) (z : Z) :
  inject_Z z <= y -> y < inject_Z (z + 1) -> Qfloor y = z.
Proof.
  intros H1 H2.
  pose proof (Qfloor_resp_le _ _ H1) as L. rewrite Qfloor_Z in L.
  pose proof (Qfloor_le y) as U.
  assert (inject_Z (Qfloor y) < inject_Z (z + 1)) as U' by lra.
  rewrite <- Zlt_Qlt in U'. lia.
Qed.

Lemma round_half_even_comp (x y : Q) :
  x == y -> round_half_even x = round_half_even y.
Proof.
  intros E. apply Z.le_antisymm; apply round_half_even_mono; lra.
Qed.

(** Ties to even is symmetric about zero. *)
Lemma round_half_even_opp (x : Q) :
  round_half_even (- x) = (- round_half_even x)%Z.
Proof.
  pose proof (Qfloor_le x) as L. pose proof (Qlt_floor x) as U.
  rewrite inject_Z_plus in U. change (inject_Z 1) with 1 in U.
  set (f := Qfloor x) in *.
  destruct (Qeq_dec x (inject_Z f)) as [E|NE].
  - rewrite (round_half_even_comp (- x) (inject_Z (- f))).
    + rewrite (round_half_even_comp x (inject_Z f) E).
      now rewrite !round_half_even_Z.
    + rewrite inject_Z_opp. lra.
  - assert (Lt' : inject_Z f < x).
    { destruct (Qlt_le_dec (inject_Z f) x); [assumption|].
      exfalso. apply NE. lra. }
    assert (F : Qfloor (- x) = (- f - 1)%Z).
    { apply Qfloor_unique.
      - unfold Z.sub. rewrite inject_Z_plus, inject_Z_opp.
        change (inject_Z (- (1))) with (- (1)). lra.
      - replace (- f - 1 + 1)%Z with (- f)%Z by lia.
        rewrite inject_Z_opp. lra. }
    unfold round_half_even. rewrite F. fold f.
    assert (I : inject_Z (- f - 1) == - inject_Z f - 1).
    { unfold Z.sub. rewrite inject_Z_plus, inject_Z_opp.
      change (inject_Z (- (1))) with (- (1)). ring. }
    destruct (Qcompare_spec (x - inject_Z f) (1 # 2)) as [H|H|H];
      destruct (Qcompare_spec (- x - inject_Z (- f - 1)) (1 # 2)) as [H'|H'|H'];
      rewrite I in H'; try (exfalso; lra); try lia.
    replace (- f - 1)%Z with (- (f + 1))%Z by lia.
    rewrite Z.even_opp, Z.even_add. simpl.
    destruct (Z.even f); simpl; lia.
Qed.

Lemma binade_opp (x : Q) : binade (- x) = binade x.
Proof.
  unfold binade. destruct x as [n d]. simpl.
  now rewrite Z.abs_opp.
Qed.

Lemma rnd_opp (x : Q) : rnd (- x) == - rnd x.
Proof.
  destruct (Qeq_dec x 0) as [E|NE].
  - rewrite (rnd_zero x E), (rnd_zero (- x)) by lra. reflexivity.
  - rewrite !rnd_nonzero by lra.
    unfold quantum_exp. rewrite binade_opp.
    set (q := Z.max (binade x - (prec - 1)) emin).
    pose proof (pow2_pos q).
    rewrite (round_half_even_comp (- x / 2 ^ q) (- (x / 2 ^ q)))
      by (field; lra).
    rewrite round_half_even_opp, inject_Z_opp. ring.
Qed.

(** Rounding to nearest is monotone. *)
Lemma rnd_monotone (x y : Q) : x <= y -> rnd x <= rnd y.
Proof.
  intros H.
  destruct (Qlt_le_dec x 0) as [Nx|Px]; [|now apply rnd_mono].
  destruct (Qlt_le_dec 0 y) as [Py|Ny].
  - pose proof (rnd_nonneg y) as H1. pose proof (rnd_nonneg (- x)) as H2.
    rewrite rnd_opp in H2. lra.
  - assert (M : rnd (- y) <= rnd (- x)) by (apply rnd_mono; lra).
    rewrite !rnd_opp in M. lra.
Qed.

Lemma rnd_eq (x y : Q) : x == y -> rnd x == rnd y.
Proof. intros E. apply Qle_antisym; apply rnd_monotone; lra. Qed.

Lemma rnd_abs (x : Q) : Qabs (rnd x) == rnd (Qabs x).
Proof.
  destruct (Qlt_le_dec x 0) as [Nx|Px].
  - assert (E1 : Qabs x == - x) by (apply Qabs_neg; lra).
    assert (E2 : rnd (Qabs x) == rnd (- x)) by now apply rnd_eq.
    assert (E3 : rnd (- x) == - rnd x) by apply rnd_opp.
    assert (N : rnd x <= 0).
    { pose proof (rnd_nonneg (- x)) as H. lra. }
    assert (E4 : Qabs (rnd x) == - rnd x) by now apply Qabs_neg.
    lra.
  - assert (E1 : Qabs x == x) by now apply Qabs_pos.
    assert (E2 : rnd (Qabs x) == rnd x) by now apply rnd_eq.
    assert (E4 : Qabs (rnd x) == rnd x) by (apply Qabs_pos; now apply rnd_nonneg).
    lra.
Qed.

End RoundingSigned.

(** ** calculate_cost, on all integers *)

Section CostSigned.

Local Open Scope Q_scope.

(** Within a representable bound the result is finite, and it is the
    rounded value. *)
Lemma round_b64_abs (B x : Q) :
  rnd B == B -> B < 2 ^ emax -> Qabs x <= B ->
  exists v, round_b64 x = Finite v /\ v == rnd x /\ Qabs v <= B.
Proof.
  intros HB HBm Hx.
  assert (Hr : Qabs (rnd x) <= B).
  { rewrite rnd_abs. rewrite <- HB. now apply rnd_monotone. }
  exists (Qred (rnd x)). split; [|split].
  - apply round_b64_small. lra.
  - apply Qred_correct.
  - now rewrite Qred_correct.
Qed.

Lemma int_truediv_value (a : Z) (X : float) :
  int_truediv a 1000 = Ok X ->
  exists v, X = Finite v /\ v == rnd (inject_Z a / 1000)
            /\ Qabs v <= 2 ^ 1024.
Proof.
  rewrite int_truediv_1000.
  destruct (round_b64 (inject_Z a / 1000)) as [v| |] eqn:E; try discriminate.
  intros [= <-]. apply round_b64_finite in E as [Ev Bv].
  exists v. split; [reflexivity|]. split; [assumption|].
  rewrite Ev. unfold emax in Bv. lra.
Qed.

Lemma Qabs_mult_quarter (v r : Q) :
  Qabs v <= 2 ^ 1024 -> 0 <= r -> r <= 1 # 4 -> Qabs (v * r) <= 2 ^ 1022.
Proof.
  intros Hv R0 R1. pose proof pow2_1024 as P. pose proof (pow2_pos 1022).
  rewrite Qabs_Qmult, (Qabs_pos r) by assumption.
  apply Qle_trans with (2 ^ 1024 * (1 # 4)); [|lra].
  apply Qmult_le_compat_nonneg; split; try lra. apply Qabs_nonneg.
Qed.

Lemma Qabs_plus_le (p o B : Q) :
  Qabs p <= B -> Qabs o <= B -> Qabs (p + o) <= 2 * B.
Proof.
  intros Hp Ho. apply Qabs_Qle_condition in Hp, Ho.
  apply Qabs_Qle_condition. lra.
Qed.

Lemma round6_abs (s : Q) :
  Qabs s <= 2 ^ 1023 ->
  Qabs (inject_Z (round_half_even (s * 10 ^ 6)) / 10 ^ 6) <= 2 ^ 1023.
Proof.
  intros Hs. pose proof pow10_6_pos as Hp.
  apply Qabs_Qle_condition in Hs as [L U].
  assert (I : inject_Z (2 ^ 1023 * 10 ^ 6) == 2 ^ 1023 * 10 ^ 6).
  { rewrite inject_Z_mult, pow2_Z by lia. reflexivity. }
  assert (H1 : (round_half_even (s * 10 ^ 6) <= 2 ^ 1023 * 10 ^ 6)%Z).
  { apply round_half_even_le_Z. rewrite I.
    apply Qmult_le_compat_r; lra. }
  assert (H2 : (- (2 ^ 1023 * 10 ^ 6) <= round_half_even (s * 10 ^ 6))%Z).
  { apply round_half_even_ge_Z. rewrite inject_Z_opp, I.
    assert (- (2 ^ 1023 * 10 ^ 6) == - 2 ^ 1023 * 10 ^ 6) as -> by ring.
    apply Qmult_le_compat_r; lra. }
  rewrite Zle_Qle in H1, H2. rewrite inject_Z_opp in H2. rewrite I in H1, H2.
  apply Qabs_Qle_condition. split.
  - apply Qle_shift_div_l; [assumption|].
    assert (- 2 ^ 1023 * 10 ^ 6 == - (2 ^ 1023 * 10 ^ 6)) as -> by ring.
    assumption.
  - apply Qle_shift_div_r; assumption.
Qed.

(** When the formula returns, what it returns is finite and is
    [cost_value]. *)
Lemma cost_formula_value (a b : Z) (ri ro : Q) (x : float) :
  0 <= ri -> ri <= 1 # 4 -> 0 <= ro -> ro <= 1 # 4 ->
  Spec.cost_formula a b (Finite ri) (Finite ro) = Ok x ->
  exists v, x = Finite v /\ v == Spec.cost_value a b ri ro.
Proof.
  intros Ri0 Ri1 Ro0 Ro1. unfold Spec.cost_formula.
  destruct (int_truediv a 1000) as [X|] eqn:EX; [|discriminate].
  destruct (int_truediv b 1000) as [Y|] eqn:EY; [|discriminate].
  destruct (int_truediv_value a X EX) as (va & -> & Eva & Bva).
  destruct (int_truediv_value b Y EY) as (vb & -> & Evb & Bvb).
  unfold mbind, result_bind, fmul.
  destruct (round_b64_abs (2 ^ 1022) (va * ri)) as (p & -> & Ep & Bp);
    [exact rnd_2_1022 | apply pow2_mono_strict; unfold emax; lia
    | now apply Qabs_mult_quarter |].
  destruct (round_b64_abs (2 ^ 1022) (vb * ro)) as (o & -> & Eo & Bo);
    [exact rnd_2_1022 | apply pow2_mono_strict; unfold emax; lia
    | now apply Qabs_mult_quarter |].
  unfold fadd.
  destruct (round_b64_abs (2 ^ 1023) (p + o)) as (s & -> & Es & Bs);
    [exact rnd_2_1023 | apply pow2_mono_strict; unfold emax; lia
    | rewrite pow2_1023; now apply Qabs_plus_le |].
  unfold round_ndigits.
  destruct (round_b64_abs (2 ^ 1023)
              (inject_Z (round_half_even (s * 10 ^ 6)) / 10 ^ 6))
    as (v & -> & Ev & Bv);
    [exact rnd_2_1023 | apply pow2_mono_strict; unfold emax; lia
    | now apply round6_abs |].
  intros [= <-]. exists v. split; [reflexivity|].
  rewrite Ev. unfold Spec.cost_value. pose proof pow10_6_pos.
  apply rnd_eq.
  assert (Es' : s == rnd (rnd (rnd (inject_Z a / 1000) * ri)
                          + rnd (rnd (inject_Z b / 1000) * ro))).
  { rewrite Es. apply rnd_eq.
    rewrite Ep, Eo.
    assert (rnd (va * ri) == rnd (rnd (inject_Z a / 1000) * ri))
      by (apply rnd_eq; rewrite Eva; reflexivity).
    assert (rnd (vb * ro) == rnd (rnd (inject_Z b / 1000) * ro))
      by (apply rnd_eq; rewrite Evb; reflexivity).
    lra. }
  rewrite (round_half_even_comp _ _
             (Qmult_comp _ _ Es' _ _ (Qeq_refl (10 ^ 6)))).
  reflexivity.
Qed.

(** The value grows with either token count. *)
Lemma cost_value_mono (a a' b b' : Z) (ri ro : Q) :
  (a <= a')%Z -> (b <= b')%Z -> 0 <= ri -> 0 <= ro ->
  Spec.cost_value a b ri ro <= Spec.cost_value a' b' ri ro.
Proof.
  intros Ha Hb Ri Ro. unfold Spec.cost_value. pose proof pow10_6_pos as Hp.
  rewrite Zle_Qle in Ha, Hb.
  assert (Da : rnd (inject_Z a / 1000) <= rnd (inject_Z a' / 1000)).
  { apply rnd_monotone. apply Qle_shift_div_l; [reflexivity|].
    assert (inject_Z a / 1000 * 1000 == inject_Z a) as -> by field.
    assumption. }
  assert (Db : rnd (inject_Z b / 1000) <= rnd (inject_Z b' / 1000)).
  { apply rnd_monotone. apply Qle_shift_div_l; [reflexivity|].
    assert (inject_Z b / 1000 * 1000 == inject_Z b) as -> by field.
    assumption. }
  assert (Pa : rnd (rnd (inject_Z a / 1000) * ri)
               <= rnd (rnd (inject_Z a' / 1000) * ri)).
  { apply rnd_monotone. now apply Qmult_le_compat_r. }
  assert (Pb : rnd (rnd (inject_Z b / 1000) * ro)
               <= rnd (rnd (inject_Z b' / 1000) * ro)).
  { apply rnd_monotone. now apply Qmult_le_compat_r. }
  apply rnd_monotone. apply Qle_shift_div_l; [assumption|].
  match goal with
  | |- ?n / ?d * ?d <= _ => assert (n / d * d == n) as -> by (field; lra)
  end.
  rewrite <- Zle_Qle. apply round_half_even_mono.
  apply Qmult_le_compat_r; [|lra].
  apply rnd_monotone. lra.
Qed.

(** Non-negative token counts give a non-negative value. *)
Lemma cost_value_nonneg (a b : Z) (ri ro : Q) :
  (0 <= a)%Z -> (0 <= b)%Z -> 0 <= ri -> 0 <= ro ->
  0 <= Spec.cost_value a b ri ro.
Proof.
  intros Ha Hb Ri Ro.
  assert (Z0 : Spec.cost_value 0 0 ri ro == 0).
  { destruct ri, ro. vm_compute. reflexivity. }
  rewrite <- Z0. now apply cost_value_mono.
Qed.

End CostSigned.

Section CostOutcome.

Local Open Scope Q_scope.

Lemma Qabs_div_1000 (a : Z) :
  Qabs (inject_Z a / 1000) == inject_Z (Z.abs a) / 1000.
Proof.
  destruct (Z.abs_spec a) as [[H ->]|[H ->]]; rewrite Zle_Qle in *||rewrite Zlt_Qlt in *;
    change (inject_Z 0) with 0 in H.
  - apply Qabs_pos. apply Qle_shift_div_l; [reflexivity | lra].
  - rewrite inject_Z_opp. rewrite Qabs_neg.
    + field.
    + apply Qle_shift_div_r; [reflexivity | lra].
Qed.

Lemma div_1000_mono (a b : Z) :
  (a <= b)%Z -> inject_Z a / 1000 <= inject_Z b / 1000.
Proof.
  intros H. rewrite Zle_Qle in H.
  apply Qle_shift_div_l; [reflexivity|].
  assert (inject_Z a / 1000 * 1000 == inject_Z a) as -> by field.
  assumption.
Qed.

(** The division by 1000 overflows from [overflow_threshold] on, in either
    direction, and nowhere below. *)
Lemma int_truediv_overflow (a : Z) :
  (Spec.overflow_threshold <= Z.abs a)%Z ->
  int_truediv a 1000 = Raise OverflowError.
Proof.
  intros H. rewrite int_truediv_1000. unfold round_b64.
  assert (E : Qle_bool (2 ^ emax) (Qabs (rnd (inject_Z a / 1000))) = true).
  { apply Qle_bool_iff. rewrite rnd_abs.
    apply Qle_trans
      with (rnd (inject_Z Spec.overflow_threshold / 1000)).
    - apply Qle_bool_iff. vm_compute. reflexivity.
    - apply rnd_monotone. rewrite Qabs_div_1000. now apply div_1000_mono. }
  now rewrite E.
Qed.

Lemma int_truediv_returns (a : Z) :
  (Z.abs a < Spec.overflow_threshold)%Z ->
  exists v, int_truediv a 1000 = Ok (Finite v).
Proof.
  intros H. rewrite int_truediv_1000.
  assert (B : Qabs (rnd (inject_Z a / 1000)) < 2 ^ emax).
  { rewrite rnd_abs.
    apply Qle_lt_trans
      with (rnd (inject_Z (Spec.overflow_threshold - 1) / 1000)).
    - apply rnd_monotone. rewrite Qabs_div_1000. apply div_1000_mono. lia.
    - apply Qnot_le_lt. rewrite <- Qle_bool_iff.
      assert (Qle_bool (2 ^ emax)
                (rnd (inject_Z (Spec.overflow_threshold - 1) / 1000)) = false)
        as -> by (vm_compute; reflexivity).
      discriminate. }
  rewrite (round_b64_small _ B). eauto.
Qed.

(** Once both quotients are finite the formula returns. *)
Lemma cost_formula_returns (a b : Z) (ri ro : Q) :
  0 <= ri -> ri <= 1 # 4 -> 0 <= ro -> ro <= 1 # 4 ->
  (Z.abs a < Spec.overflow_threshold)%Z ->
  (Z.abs b < Spec.overflow_threshold)%Z ->
  exists v, Spec.cost_formula a b (Finite ri) (Finite ro) = Ok (Finite v).
Proof.
  intros Ri0 Ri1 Ro0 Ro1 Ha Hb. unfold Spec.cost_formula.
  destruct (int_truediv_returns a Ha) as [va Ea].
  destruct (int_truediv_returns b Hb) as [vb Eb].
  destruct (int_truediv_value a _ Ea) as (va' & [= <-] & _ & Bva).
  destruct (int_truediv_value b _ Eb) as (vb' & [= <-] & _ & Bvb).
  rewrite Ea, Eb. unfold mbind, result_bind, fmul.
  destruct (round_b64_abs (2 ^ 1022) (va * ri)) as (p & -> & Ep & Bp);
    [exact rnd_2_1022 | apply pow2_mono_strict; unfold emax; lia
    | now apply Qabs_mult_quarter |].
  destruct (round_b64_abs (2 ^ 1022) (vb * ro)) as (o & -> & Eo & Bo);
    [exact rnd_2_1022 | apply pow2_mono_strict; unfold emax; lia
    | now apply Qabs_mult_quarter |].
  unfold fadd.
  destruct (round_b64_abs (2 ^ 1023) (p + o)) as (s & -> & Es & Bs);
    [exact rnd_2_1023 | apply pow2_mono_strict; unfold emax; lia
    | rewrite pow2_1023; now apply Qabs_plus_le |].
  unfold round_ndigits.
  destruct (round_b64_abs (2 ^ 1023)
              (inject_Z (round_half_even (s * 10 ^ 6)) / 10 ^ 6))
    as (v & -> & Ev & Bv);
    [exact rnd_2_1023 | apply pow2_mono_strict; unfold emax; lia
    | now apply round6_abs |].
  eauto.
Qed.

End CostOutcome.

(** [calculate_cost] returns a finite float or raises [OverflowError]: it
    never returns an infinity or NaN and raises nothing else, whatever the
    integers and the model name. *)
Theorem calculate_cost_outcome (a b : Z) (model : string) :
  (exists v, calculate_cost a b model = Ok (Finite v))
  \/ calculate_cost a b model = Raise OverflowError.
Proof.
  destruct (MODEL_COSTS !! model) as [costs|] eqn:Hc.
  - destruct (calculate_cost_formula model (ex_intro _ costs Hc))
      as (vi & vo & [I0 I1] & [O0 O1] & F).
    rewrite F.
    destruct (Spec.cost_formula a b (Finite vi) (Finite vo)) as [x|e] eqn:E.
    + left. destruct (cost_formula_value a b vi vo x) as (v & -> & _);
        try assumption. eauto.
    + right. unfold Spec.cost_formula in E.
      destruct (int_truediv a 1000) as [X|ea] eqn:EX.
      * destruct (int_truediv b 1000) as [Y|eb] eqn:EY.
        -- exfalso. unfold mbind, result_bind in E.
           assert (Spec.cost_formula a b (Finite vi) (Finite vo) = Raise e) as E'
             by (unfold Spec.cost_formula; rewrite EX, EY; exact E).
           destruct (int_truediv_value a X EX) as (va & -> & _ & _).
           destruct (int_truediv_value b Y EY) as (vb & -> & _ & _).
           destruct (Z_lt_le_dec (Z.abs a) Spec.overflow_threshold) as [La|La];
             [|rewrite (int_truediv_overflow a La) in EX; discriminate].
           destruct (Z_lt_le_dec (Z.abs b) Spec.overflow_threshold) as [Lb|Lb];
             [|rewrite (int_truediv_overflow b Lb) in EY; discriminate].
           destruct (cost_formula_returns a b vi vo) as [v Ev]; try assumption.
           congruence.
        -- unfold mbind, result_bind in E. injection E as <-.
           rewrite int_truediv_1000 in EY.
           destruct (round_b64 (inject_Z b / 1000)); congruence.
      * unfold mbind, result_bind in E. injection E as <-.
        rewrite int_truediv_1000 in EX.
        destruct (round_b64 (inject_Z a / 1000)); congruence.
  - left. unfold calculate_cost. rewrite Hc, float_zero. eauto.
Qed.

(** For a model of the table, [calculate_cost] raises [OverflowError]
    exactly when a token count reaches [1000 * (2^1024 - 2^970)] in
    magnitude, and returns below that. *)
Theorem calculate_cost_overflow_threshold (a b : Z) (model : string) :
  is_Some (MODEL_COSTS !! model) ->
  ((Z.abs a < Spec.overflow_threshold /\ Z.abs b < Spec.overflow_threshold)%Z ->
     exists v, calculate_cost a b model = Ok (Finite v))
  /\ ((Spec.overflow_threshold <= Z.abs a \/ Spec.overflow_threshold <= Z.abs b)%Z ->
        calculate_cost a b model = Raise OverflowError).
Proof.
  intros Hm.
  destruct (calculate_cost_formula model Hm)
    as (vi & vo & [I0 I1] & [O0 O1] & F).
  rewrite F. split.
  - intros [Ha Hb]. now apply cost_formula_returns.
  - intros H. unfold Spec.cost_formula.
    destruct (Z_lt_le_dec (Z.abs a) Spec.overflow_threshold) as [La|La].
    + destruct H as [H|H]; [lia|].
      destruct (int_truediv_returns a La) as [va ->].
      unfold mbind, result_bind. now rewrite (int_truediv_overflow b H).
    + now rewrite (int_truediv_overflow a La).
Qed.

Lemma calculate_cost_overflow_threshold_witness :
  (exists v, calculate_cost (Spec.overflow_threshold - 1)
               (1 - Spec.overflow_threshold) "gpt-4" = Ok (Finite v))
  /\ calculate_cost Spec.overflow_threshold 0 "gpt-4" = Raise OverflowError.
Proof.
  split.
  - apply (proj1 (calculate_cost_overflow_threshold
                    (Spec.overflow_threshold - 1)
                    (1 - Spec.overflow_threshold) "gpt-4"
                    ltac:(eexists; vm_compute; reflexivity))).
    vm_compute. split; reflexivity.
  - apply (proj2 (calculate_cost_overflow_threshold
                    Spec.overflow_threshold 0 "gpt-4"
                    ltac:(eexists; vm_compute; reflexivity))).
    left. vm_compute. discriminate.
Defined.

(** [calculate_cost] is monotone in both token counts, over all integers:
    more input tokens or more output tokens never cost less, when both
    calls return. *)
Theorem calculate_cost_nondecreasing (a a' b b' : Z) (model : string)
    (x y : float) :
  a <= a' -> b <= b' ->
  calculate_cost a b model = Ok x -> calculate_cost a' b' model = Ok y ->
  fle x y = true.
Proof.
  intros Ha Hb Hx Hy.
  destruct (MODEL_COSTS !! model) as [costs|] eqn:Hc.
  - destruct (calculate_cost_formula model (ex_intro _ costs Hc))
      as (vi & vo & [I0 I1] & [O0 O1] & F).
    rewrite F in Hx, Hy.
    destruct (cost_formula_value a b vi vo x) as (v & -> & Ev); try assumption.
    destruct (cost_formula_value a' b' vi vo y) as (w & -> & Ew); try assumption.
    simpl. apply Qle_bool_iff. rewrite Ev, Ew. now apply cost_value_mono.
  - unfold calculate_cost in Hx, Hy. rewrite Hc in Hx, Hy.
    injection Hx as <-. injection Hy as <-. reflexivity.
Qed.

Lemma calculate_cost_nondecreasing_witness :
  fle (float_lit (-15) (-5)) (float_lit 45 (-5)) = true.
Proof.
  apply (calculate_cost_nondecreasing (-1000) 1000 0 500 "gpt-4o-mini");
    [lia | lia | vm_compute; reflexivity | vm_compute; reflexivity].
Defined.

(** With non-negative token counts the cost is never negative, and a cost
    record carrying the counts, their sum and that cost is constructed. *)
Theorem calculate_cost_feeds_schema (a b : Z) (model eid : string)
    (x : float) (now : datetime) :
  0 <= a -> 0 <= b -> calculate_cost a b model = Ok x ->
  fle (float_lit 0 0) x = true
  /\ exists r,
       CostTrackingSchema_new now (Spec.cost_kwargs eid model a b x) = Ok r
       /\ input_tokens r = a /\ output_tokens r = b
       /\ total_tokens r = a + b /\ cost_usd r = x.
Proof.
  intros Ha Hb Hx.
  assert (P : fle (float_lit 0 0) x = true).
  { destruct (MODEL_COSTS !! model) as [costs|] eqn:Hc.
    - destruct (calculate_cost_formula model (ex_intro _ costs Hc))
        as (vi & vo & [I0 I1] & [O0 O1] & F).
      rewrite F in Hx.
      destruct (cost_formula_value a b vi vo x) as (v & -> & Ev);
        try assumption.
      rewrite float_zero. simpl. apply Qle_bool_iff. rewrite Ev.
      now apply cost_value_nonneg.
    - unfold calculate_cost in Hx. rewrite Hc in Hx. now injection Hx as <-. }
  split; [assumption|].
  destruct (CostTrackingSchema_new_typed now
              (Spec.cost_kwargs eid model a b x) eid model a b (a + b) x)
    as (ts & comp & sess & E); try reflexivity; try absent.
  rewrite E, P.
  destruct (Z.leb_spec 0 a); [|lia]. destruct (Z.leb_spec 0 b); [|lia].
  destruct (Z.leb_spec 0 (a + b)); [|lia].
  simpl. eauto 10.
Qed.

Lemma calculate_cost_feeds_schema_witness :
  fle (float_lit 0 0) (float_lit 45 (-5)) = true
  /\ exists r,
       CostTrackingSchema_new Samples.clock
         (Spec.cost_kwargs "EVT_COST_001" "gpt-4o-mini" 1000 500
            (float_lit 45 (-5))) = Ok r
       /\ input_tokens r = 1000 /\ output_tokens r = 500
       /\ total_tokens r = 1000 + 500 /\ cost_usd r = float_lit 45 (-5).
Proof.
  apply (calculate_cost_feeds_schema 1000 500 "gpt-4o-mini" "EVT_COST_001");
    [lia | lia | vm_compute; reflexivity].
Defined.

(** ** Timestamps *)

Section Timestamps.




End Timestamps.





(** ** truncate_text, every max_length *)

Section Truncation.

Lemma adjust_stop_range (stop length : Z) :
  0 <= length -> 0 <= PyStr.adjust_stop stop length <= length.
Proof.
  intros H. unfold PyStr.adjust_stop.
  destruct (Z.ltb_spec stop 0).
  - destruct (Z.ltb_spec (stop + length) 0); lia.
  - destruct (Z.ltb_spec length stop); lia.
Qed.

Lemma slice_to_length (s : string) (stop : Z) :
  PyStr.len (PyStr.slice_to s stop) = PyStr.adjust_stop stop (PyStr.len s).
Proof.
  unfold PyStr.slice_to.
  pose proof (adjust_stop_range stop (PyStr.len s)) as R.
  unfold PyStr.len in *. rewrite prefix_length. lia.
Qed.

Lemma truncate_text_fits (text : string) (max_length : Z) :
  PyStr.len text <= max_length -> truncate_text text max_length = text.
Proof.
  intros H. unfold truncate_text.
  destruct (PyStr.is_empty text) eqn:E.
  - apply is_empty_len in E. now subst.
  - destruct (Z.leb_spec (PyStr.len text) max_length); [reflexivity | lia].
Qed.

Lemma truncate_text_length (text : string) (max_length : Z) :
  PyStr.len (truncate_text text max_length)
  = if 0 <=? max_length then Z.min (PyStr.len text) max_length
    else Z.max 0 (PyStr.len text + max_length).
Proof.
  assert (L0 : 0 <= PyStr.len text) by (unfold PyStr.len; lia).
  unfold truncate_text.
  destruct (PyStr.is_empty text) eqn:E.
  { apply is_empty_len in E. subst. change (PyStr.len "") with 0.
    destruct (Z.leb_spec 0 max_length); lia. }
  destruct (Z.leb_spec (PyStr.len text) max_length) as [H|H].
  { destruct (Z.leb_spec 0 max_length); lia. }
  destruct (Z.leb_spec max_length 3) as [H3|H3].
  - rewrite slice_to_length. unfold PyStr.adjust_stop.
    destruct (Z.leb_spec 0 max_length), (Z.ltb_spec max_length 0); try lia.
    + destruct (Z.ltb_spec (PyStr.len text) max_length); lia.
    + destruct (Z.ltb_spec (max_length + PyStr.len text) 0); lia.
  - unfold PyStr.len at 1. rewrite append_length, Nat2Z.inj_add.
    fold (PyStr.len (PyStr.slice_to text (max_length - 3))).
    rewrite slice_to_length. unfold PyStr.adjust_stop.
    destruct (Z.ltb_spec (max_length - 3) 0); [lia|].
    destruct (Z.ltb_spec (PyStr.len text) (max_length - 3)); [lia|].
    destruct (Z.leb_spec 0 max_length); [|lia]. simpl. lia.
Qed.

End Truncation.

(** The length of [truncate_text(text, max_length)] is
    [min(len(text), max_length)] when [max_length >= 0] and
    [max(0, len(text) + max_length)] when it is negative.  So the result is
    never longer than the text, it respects every non-negative bound (also
    0 to 3), and a negative [max_length] instead removes that many
    characters from the end. *)
Theorem truncate_text_length_law (text : string) (max_length : Z) :
  PyStr.len (truncate_text text max_length)
  = (if 0 <=? max_length then Z.min (PyStr.len text) max_length
     else Z.max 0 (PyStr.len text + max_length))
  /\ PyStr.len (truncate_text text max_length) <= PyStr.len text
  /\ (0 <= max_length ->
        PyStr.len (truncate_text text max_length) <= max_length)
  /\ (max_length < 0 -> PyStr.len text <> 0 ->
        max_length < PyStr.len (truncate_text text max_length)
        /\ truncate_text text max_length
           = substring 0 (Z.to_nat (PyStr.len text + max_length)) text).
Proof.
  assert (L0 : 0 <= PyStr.len text) by (unfold PyStr.len; lia).
  pose proof (truncate_text_length text max_length) as E.
  split; [exact E|]. split; [|split].
  - rewrite E. destruct (Z.leb_spec 0 max_length); lia.
  - intros H. rewrite E. destruct (Z.leb_spec 0 max_length); lia.
  - intros H Hne. split.
    + rewrite E. destruct (Z.leb_spec 0 max_length); lia.
    + unfold truncate_text.
      destruct (PyStr.is_empty text) eqn:Em.
      { apply is_empty_len in Em. subst. now destruct Hne. }
      destruct (Z.leb_spec (PyStr.len text) max_length); [lia|].
      destruct (Z.leb_spec max_length 3); [|lia].
      unfold PyStr.slice_to, PyStr.adjust_stop.
      destruct (Z.ltb_spec max_length 0); [|lia].
      rewrite prefix_substring.
      destruct (Z.ltb_spec (max_length + PyStr.len text) 0).
      * replace (Z.to_nat (PyStr.len text + max_length)) with 0%nat by lia.
        reflexivity.
      * now rewrite Z.add_comm.
Qed.

(** For [max_length >= 0] truncating twice is truncating once. *)
Theorem truncate_text_idempotent (text : string) (max_length : Z) :
  0 <= max_length ->
  truncate_text (truncate_text text max_length) max_length
  = truncate_text text max_length.
Proof.
  intros H. apply truncate_text_fits.
  rewrite truncate_text_length.
  destruct (Z.leb_spec 0 max_length); lia.
Qed.

Lemma truncate_text_idempotent_witness :
  truncate_text (truncate_text "Hello World" 8) 8 = truncate_text "Hello World" 8.
Proof. apply truncate_text_idempotent. lia. Defined.

(** With a negative [max_length] a second truncation cuts again. *)
Example truncate_text_negative_twice :
  truncate_text "Hello" (-2) = "Hel"
  /\ truncate_text (truncate_text "Hello" (-2)) (-2) = "H".
Proof. split; reflexivity. Qed.

(** ** generate_event_id *)

Section EventId.

Lemma append_cons (x : ascii) (a b : string) :
  String x a ++ b = String x (a ++ b).
Proof. reflexivity. Qed.

Lemma append_nil_r (a : string) : a ++ "" = a.
Proof.
  induction a as [|x a IH]; [reflexivity|]. now rewrite append_cons, IH.
Qed.

Lemma append_assoc (a b c : string) : (a ++ b) ++ c = a ++ (b ++ c).
Proof.
  induction a as [|x a IH]; [reflexivity|]. now rewrite !append_cons, IH.
Qed.

Lemma append_inj_l (p a b : string) : p ++ a = p ++ b -> a = b.
Proof.
  induction p as [|x p IH]; [auto|]. rewrite !append_cons. intros [= H]. auto.
Qed.

Lemma snoc_inj (a b : string) (c d : ascii) :
  a ++ String c EmptyString = b ++ String d EmptyString -> a = b /\ c = d.
Proof.
  revert b; induction a as [|x a IH]; intros [|y b];
    rewrite ?append_cons; change ("" ++ ?s) with s; intros H.
  - injection H as ->. auto.
  - injection H as _ H. destruct b; discriminate.
  - injection H as _ H. destruct a; discriminate.
  - injection H as -> H. destruct (IH b H) as [-> ->]. auto.
Qed.

Lemma prefix_append (a b : string) :
  PyStr.prefix (String.length a) (a ++ b) = a.
Proof.
  induction a as [|x a IH]; [now destruct b|].
  rewrite append_cons. simpl. now rewrite IH.
Qed.

Lemma upper_append (a b : string) :
  PyStr.upper (a ++ b) = PyStr.upper a ++ PyStr.upper b.
Proof.
  induction a as [|x a IH]; [reflexivity|].
  rewrite append_cons. simpl. now rewrite append_cons, IH.
Qed.

Lemma upper_length (a : string) : String.length (PyStr.upper a) = String.length a.
Proof. induction a as [|x a IH]; simpl; [reflexivity | now rewrite IH]. Qed.

Lemma all_chars_append p (a b : string) :
  Spec.all_chars p (a ++ b) = (Spec.all_chars p a && Spec.all_chars p b)%bool.
Proof.
  induction a as [|x a IH]; [reflexivity|].
  rewrite append_cons. simpl. now rewrite IH, andb_assoc.
Qed.

Lemma hex_digits_length (n : nat) (u : Z) : String.length (hex_digits n u) = n.
Proof.
  revert u; induction n as [|n IH]; intros u; simpl; [reflexivity|].
  rewrite append_length, IH. simpl. lia.
Qed.

(** The digits of [u] split at any column. *)
Lemma hex_digits_split (n m : nat) (u : Z) :
  hex_digits (n + m) u = hex_digits n (u / 16 ^ Z.of_nat m) ++ hex_digits m u.
Proof.
  revert u; induction m as [|m IH]; intros u.
  - rewrite Nat.add_0_r. change (16 ^ Z.of_nat 0) with 1. rewrite Z.div_1_r.
    cbn [hex_digits]. now rewrite append_nil_r.
  - rewrite Nat.add_succ_r. simpl hex_digits. rewrite IH.
    rewrite append_assoc. f_equal.
    assert (P : 0 < 16 ^ Z.of_nat m) by (apply Z.pow_pos_nonneg; lia).
    rewrite Z.div_div by lia.
    now rewrite Nat2Z.inj_succ, Z.pow_succ_r by lia.
Qed.

Lemma upper_hex_digit (d : Z) :
  0 <= d < 16 -> Spec.is_upper_hex (PyStr.upper_char (hex_digit d)) = true.
Proof.
  intros H.
  assert (d = 0 \/ d = 1 \/ d = 2 \/ d = 3 \/ d = 4 \/ d = 5 \/ d = 6 \/ d = 7
          \/ d = 8 \/ d = 9 \/ d = 10 \/ d = 11 \/ d = 12 \/ d = 13 \/ d = 14
          \/ d = 15) as C by lia.
  repeat (destruct C as [->|C]; [reflexivity|]). now subst.
Qed.

Lemma upper_hex_digit_inj (d e : Z) :
  0 <= d < 16 -> 0 <= e < 16 ->
  PyStr.upper_char (hex_digit d) = PyStr.upper_char (hex_digit e) -> d = e.
Proof.
  intros Hd He.
  assert (d = 0 \/ d = 1 \/ d = 2 \/ d = 3 \/ d = 4 \/ d = 5 \/ d = 6 \/ d = 7
          \/ d = 8 \/ d = 9 \/ d = 10 \/ d = 11 \/ d = 12 \/ d = 13 \/ d = 14
          \/ d = 15) as C by lia.
  assert (e = 0 \/ e = 1 \/ e = 2 \/ e = 3 \/ e = 4 \/ e = 5 \/ e = 6 \/ e = 7
          \/ e = 8 \/ e = 9 \/ e = 10 \/ e = 11 \/ e = 12 \/ e = 13 \/ e = 14
          \/ e = 15) as D by lia.
  clear Hd He.
  repeat (destruct C as [->|C]; [| ]); subst;
    repeat (destruct D as [->|D]; [| ]); subst;
    vm_compute; try reflexivity; intros H; discriminate H.
Qed.

Lemma upper_hex_digits_all (n : nat) (u : Z) :
  Spec.all_chars Spec.is_upper_hex (PyStr.upper (hex_digits n u)) = true.
Proof.
  revert u; induction n as [|n IH]; intros u; simpl; [reflexivity|].
  rewrite upper_append, all_chars_append, IH. simpl.
  rewrite upper_hex_digit; [reflexivity|].
  apply Z.mod_pos_bound. lia.
Qed.

(** Upper-case digits determine the number they write. *)
Lemma upper_hex_digits_inj (n : nat) (u v : Z) :
  PyStr.upper (hex_digits n u) = PyStr.upper (hex_digits n v) ->
  u mod 16 ^ Z.of_nat n = v mod 16 ^ Z.of_nat n.
Proof.
  revert u v; induction n as [|n IH]; intros u v H.
  - simpl. now rewrite !Z.mod_1_r.
  - simpl hex_digits in H. rewrite !upper_append in H. simpl in H.
    apply snoc_inj in H as [H1 H2].
    apply IH in H1.
    apply upper_hex_digit_inj in H2; try (apply Z.mod_pos_bound; lia).
    rewrite Nat2Z.inj_succ, Z.pow_succ_r by lia.
    rewrite !(Z.rem_mul_r _ 16) by lia.
    now rewrite H1, H2.
Qed.

(** Setting the version and the variant leaves the top 48 bits alone. *)
Lemma uuid4_int_top (r : Z) :
  uuid4_int r / 2 ^ 80 = (r mod 2 ^ 128) / 2 ^ 80.
Proof.
  unfold uuid4_int. rewrite <- !Z.shiftr_div_pow2 by lia.
  rewrite Z.shiftr_lor, Z.shiftr_land, Z.shiftr_lor, Z.shiftr_land.
  change (Z.shiftr (Z.lnot (Z.shiftl 0xc000 48)) 80) with (-1).
  change (Z.shiftr (Z.shiftl 0x8000 48) 80) with 0.
  change (Z.shiftr (Z.lnot (Z.shiftl 0xf000 64)) 80) with (-1).
  change (Z.shiftr (Z.shiftl 4 76) 80) with 0.
  now rewrite !Z.land_m1_r, !Z.lor_0_r.
Qed.

Lemma unique_part_eq (r : Z) :
  PyStr.slice_to (uuid_hex (uuid4_int r)) 12
  = hex_digits 12 ((r mod 2 ^ 128) / 2 ^ 80).
Proof.
  unfold uuid_hex, PyStr.slice_to, PyStr.len.
  rewrite hex_digits_length.
  change (Z.to_nat (PyStr.adjust_stop 12 (Z.of_nat 32))) with 12%nat.
  change 32%nat with (12 + 20)%nat. rewrite hex_digits_split.
  rewrite <- (hex_digits_length 12 (uuid4_int r / 16 ^ Z.of_nat 20)) at 1.
  rewrite prefix_append.
  change (16 ^ Z.of_nat 20) with (2 ^ 80). now rewrite uuid4_int_top.
Qed.

Lemma generate_event_id_eq (prefix : string) (r : Z) :
  generate_event_id prefix r
  = prefix ++ "_" ++ PyStr.upper (hex_digits 12 ((r mod 2 ^ 128) / 2 ^ 80)).
Proof. unfold generate_event_id. now rewrite unique_part_eq. Qed.

End EventId.

(** An event id is the prefix, an underscore and twelve upper-case
    hexadecimal digits: its length is the prefix's plus 13, whatever the
    random draw. *)
Theorem generate_event_id_format (prefix : string) (r : Z) :
  exists unique_part,
    generate_event_id prefix r = prefix ++ "_" ++ unique_part
    /\ String.length unique_part = 12%nat
    /\ Spec.all_chars Spec.is_upper_hex unique_part = true
    /\ String.length (generate_event_id prefix r)
       = (String.length prefix + 13)%nat.
Proof.
  exists (PyStr.upper (hex_digits 12 ((r mod 2 ^ 128) / 2 ^ 80))).
  rewrite generate_event_id_eq.
  split; [reflexivity|]. split; [|split].
  - now rewrite upper_length, hex_digits_length.
  - apply upper_hex_digits_all.
  - rewrite !append_length, upper_length, hex_digits_length. simpl. lia.
Qed.

(** Two ids with the same prefix collide exactly when the two random draws
    agree on their top 48 bits: the twelve digits are bits 80 to 127 of the
    draw, which the version and variant bits of the UUID do not touch. *)
Theorem generate_event_id_collision (prefix : string) (r1 r2 : Z) :
  generate_event_id prefix r1 = generate_event_id prefix r2
  <-> (r1 mod 2 ^ 128) / 2 ^ 80 = (r2 mod 2 ^ 128) / 2 ^ 80.
Proof.
  rewrite !generate_event_id_eq. split.
  - intros H. apply append_inj_l in H. apply (append_inj_l "_") in H.
    apply upper_hex_digits_inj in H.
    assert (B : forall r, 0 <= (r mod 2 ^ 128) / 2 ^ 80 < 16 ^ Z.of_nat 12).
    { intros r. pose proof (Z.mod_pos_bound r (2 ^ 128) ltac:(lia)) as Hr.
      split; [apply Z.div_pos; lia|].
      apply Z.div_lt_upper_bound; [lia|].
      change (2 ^ 80 * 16 ^ Z.of_nat 12) with (2 ^ 128). lia. }
    rewrite (Z.mod_small _ _ (B r1)), (Z.mod_small _ _ (B r2)) in H. exact H.
  - now intros ->.
Qed.

(** ** The schemas, further *)

Section Schemas.

Lemma of_value_inv (s : string) (e : AuditEventType.t) :
  AuditEventType.of_value s = Some e -> AuditEventType.value e = s.
Proof.
  unfold AuditEventType.of_value. intros H.
  apply find_some in H as [_ H]. now apply String.eqb_eq in H.
Qed.

Lemma of_value_name (e : AuditEventType.t) :
  AuditEventType.of_value (AuditEventType.name e) = None.
Proof. destruct e; reflexivity. Qed.

Lemma field_absent {A : Type} kwargs name (validate : validator A) d :
  kwargs !! name = None -> field kwargs name validate (Some d) = inr d.
Proof. intros H. unfold field. now rewrite H. Qed.

(** A record is constructed again from its own dump. *)
Lemma GovernanceLogEntry_of_dump now (r : GovernanceLogEntry) :
  GovernanceLogEntry_new now (GovernanceLogEntry_model_dump r) = Ok r.
Proof.
  destruct r. unfold GovernanceLogEntry_new.
  erewrite (field_present _ "timestamp"); [|reflexivity|reflexivity].
  erewrite (field_present _ "component"); [|reflexivity|reflexivity].
  erewrite (field_present _ "action"); [|reflexivity|reflexivity].
  erewrite (field_present _ "success"); [|reflexivity|reflexivity].
  erewrite (field_present _ "details");
    [|reflexivity|apply optional_str_of_option].
  reflexivity.
Qed.

Lemma AuditEventSchema_of_dump now (r : AuditEventSchema) e :
  event_type r = AuditEventType.value e ->
  AuditEventSchema_new now (AuditEventSchema_model_dump r) = Ok r.
Proof.
  destruct r. simpl. intros ->. unfold AuditEventSchema_new.
  erewrite (field_present _ "event_id"); [|reflexivity|reflexivity].
  erewrite (field_present _ "event_type");
    [|reflexivity|apply enum_value_of_value].
  erewrite (field_present _ "timestamp"); [|reflexivity|reflexivity].
  erewrite (field_present _ "component"); [|reflexivity|reflexivity].
  erewrite (field_present _ "action"); [|reflexivity|reflexivity].
  erewrite (field_present _ "user_id");
    [|reflexivity|apply optional_str_of_option].
  erewrite (field_present _ "session_id");
    [|reflexivity|apply optional_str_of_option].
  erewrite (field_present _ "success"); [|reflexivity|reflexivity].
  erewrite (field_present _ "details");
    [|reflexivity|apply optional_dict_of_option].
  erewrite (field_present _ "metadata");
    [|reflexivity|apply optional_dict_of_option].
  reflexivity.
Qed.

Lemma of_option_inj {A : Type} (inj : A -> pyval) (o1 o2 : option A) :
  (forall a, inj a <> PNone) -> (forall a b, inj a = inj b -> a = b) ->
  of_option inj o1 = of_option inj o2 -> o1 = o2.
Proof.
  intros Hn Hi. destruct o1, o2; simpl; intros H.
  - f_equal. now apply Hi.
  - now apply Hn in H.
  - symmetry in H. now apply Hn in H.
  - reflexivity.
Qed.

Lemma of_option_PStr_inj (o1 o2 : option string) :
  of_option PStr o1 = of_option PStr o2 -> o1 = o2.
Proof. apply of_option_inj; [discriminate | now intros a b [= ->]]. Qed.

Lemma of_option_PDict_inj (o1 o2 : option (list (string * pyval))) :
  of_option PDict o1 = of_option PDict o2 -> o1 = o2.
Proof. apply of_option_inj; [discriminate | now intros a b [= ->]]. Qed.

End Schemas.

(** [AuditEventType(value)] finds every member by its value, and only by
    its value: the fifteen values are distinct, a string that is found is
    the value of the member found, and no symbolic name is a value. *)
Theorem AuditEventType_by_value :
  (forall e, AuditEventType.of_value (AuditEventType.value e) = Some e)
  /\ (forall s e, AuditEventType.of_value s = Some e ->
                  AuditEventType.value e = s)
  /\ (forall e1 e2, AuditEventType.value e1 = AuditEventType.value e2 ->
                    e1 = e2)
  /\ (forall e, AuditEventType.of_value (AuditEventType.name e) = None)
  /\ length AuditEventType.members = 15%nat
  /\ (forall e, e ∈ AuditEventType.members).
Proof.
  split; [apply of_value_value|]. split; [apply of_value_inv|].
  split; [|split; [apply of_value_name|split; [reflexivity|]]].
  - intros e1 e2 H.
    assert (Some e1 = Some e2) as [= ->]; [|reflexivity].
    now rewrite <- (of_value_value e1), <- (of_value_value e2), H.
  - intros e. destruct e; unfold AuditEventType.members; set_solver.
Qed.

(** An [event_type] given as a string is matched against the values, case
    and all: a string that is no value is rejected with an enum error; a
    record that is constructed holds that very string, which is the value
    of a member. *)
Theorem AuditEventSchema_event_type_string now (kwargs : gmap string pyval)
    (s : string) :
  kwargs !! "event_type" = Some (PStr s) ->
  (AuditEventType.of_value s = None ->
     exists errors,
       AuditEventSchema_new now kwargs = Raise (ValidationError errors)
       /\ ("event_type", enum_value) ∈ errors)
  /\ (forall r, AuditEventSchema_new now kwargs = Ok r ->
        event_type r = s /\ exists e, AuditEventType.value e = s).
Proof.
  intros Hs. split.
  - intros Hnone. unfold AuditEventSchema_new. apply fails_to_result.
    do 8 apply fails_vap_l. apply fails_vap_r.
    exists [("event_type", enum_value)]. split; [|set_solver].
    unfold field. rewrite Hs. simpl. now rewrite Hnone.
  - intros r H. unfold AuditEventSchema_new in H. invert_new H. simpl.
    match goal with
    | Hf : field _ "event_type" _ _ = inr _ |- _ =>
        unfold field in Hf; rewrite Hs in Hf; simpl in Hf;
        destruct (AuditEventType.of_value s) as [e|] eqn:E;
        [|discriminate Hf]; injection Hf as <-
    end.
    apply of_value_inv in E. eauto.
Qed.

Lemma AuditEventSchema_event_type_string_witness :
  (exists errors,
      AuditEventSchema_new Samples.clock (Samples.typed_by_string "USER_QUERY")
      = Raise (ValidationError errors)
      /\ ("event_type", enum_value) ∈ errors).
Proof.
  apply (proj1 (AuditEventSchema_event_type_string Samples.clock
                  (Samples.typed_by_string "USER_QUERY") "USER_QUERY"
                  eq_refl)).
  reflexivity.
Defined.

(** An audit event constructed from the four required arguments alone has
    the defaults: the time of construction, no user, no session, success,
    no details and no metadata. *)
Theorem AuditEventSchema_defaults now (kwargs : gmap string pyval) eid et c a :
  kwargs !! "event_id" = Some (PStr eid) ->
  kwargs !! "event_type" = Some (PEnum et) ->
  kwargs !! "component" = Some (PStr c) ->
  kwargs !! "action" = Some (PStr a) ->
  kwargs !! "timestamp" = None -> kwargs !! "user_id" = None ->
  kwargs !! "session_id" = None -> kwargs !! "success" = None ->
  kwargs !! "details" = None -> kwargs !! "metadata" = None ->
  AuditEventSchema_new now kwargs
  = Ok {| event_id := eid; event_type := AuditEventType.value et;
          timestamp := now; component := c; action := a;
          user_id := None; session_id := None; success := true;
          details := None; metadata := None |}.
Proof.
  intros H1 H2 H3 H4 N1 N2 N3 N4 N5 N6. unfold AuditEventSchema_new.
  rewrite (field_present _ "event_id" _ _ _ eid H1 eq_refl).
  rewrite (field_present _ "event_type" _ _ _ (AuditEventType.value et) H2 eq_refl).
  rewrite (field_present _ "component" _ _ _ c H3 eq_refl).
  rewrite (field_present _ "action" _ _ _ a H4 eq_refl).
  rewrite (field_absent _ "timestamp" _ _ N1), (field_absent _ "user_id" _ _ N2),
    (field_absent _ "session_id" _ _ N3), (field_absent _ "success" _ _ N4),
    (field_absent _ "details" _ _ N5), (field_absent _ "metadata" _ _ N6).
  reflexivity.
Qed.

Lemma AuditEventSchema_defaults_witness :
  AuditEventSchema_new Samples.clock Samples.required_only
  = Ok {| event_id := "EVT_123ABC"; event_type := "user_query";
          timestamp := Samples.clock; component := "ChatUI";
          action := "User submitted query";
          user_id := None; session_id := None; success := true;
          details := None; metadata := None |}.
Proof.
  apply (AuditEventSchema_defaults Samples.clock Samples.required_only
           "EVT_123ABC" AuditEventType.USER_QUERY "ChatUI"
           "User submitted query"); reflexivity.
Defined.

(** A cost record needs [event_id], [model], the three token counts and
    [cost_usd]: when one of them is absent construction raises
    [ValidationError] and reports that field missing. *)
Theorem CostTrackingSchema_required_fields now (kwargs : gmap string pyval) name :
  name ∈ ["event_id"; "model"; "input_tokens"; "output_tokens";
          "total_tokens"; "cost_usd"] ->
  kwargs !! name = None ->
  exists errors,
    CostTrackingSchema_new now kwargs = Raise (ValidationError errors)
    /\ (name, missing) ∈ errors.
Proof.
  intros Hin Hnone. unfold CostTrackingSchema_new. apply fails_to_result.
  repeat (apply elem_of_cons in Hin as [->|Hin];
          [ repeat first [ apply fails_vap_r; apply field_missing; assumption
                         | apply fails_vap_l ] | ]).
  inversion Hin.
Qed.

Lemma CostTrackingSchema_required_fields_witness :
  exists errors,
    CostTrackingSchema_new Samples.clock Samples.required_only
    = Raise (ValidationError errors)
    /\ ("cost_usd", missing) ∈ errors.
Proof.
  apply (CostTrackingSchema_required_fields Samples.clock
           Samples.required_only "cost_usd").
  - repeat constructor.
  - reflexivity.
Defined.

(** A log entry needs [component] and [action]: without one of them
    construction raises [ValidationError] and reports it missing; with the
    two alone the entry has the time of construction, success and no
    details. *)
Theorem GovernanceLogEntry_required_and_defaults now
    (kwargs : gmap string pyval) :
  (forall name, name ∈ ["component"; "action"] -> kwargs !! name = None ->
     exists errors,
       GovernanceLogEntry_new now kwargs = Raise (ValidationError errors)
       /\ (name, missing) ∈ errors)
  /\ (forall c a,
        kwargs !! "component" = Some (PStr c) ->
        kwargs !! "action" = Some (PStr a) ->
        kwargs !! "timestamp" = None -> kwargs !! "success" = None ->
        kwargs !! "details" = None ->
        GovernanceLogEntry_new now kwargs
        = Ok {| log_timestamp := now; log_component := c; log_action := a;
                log_success := true; log_details := None |}).
Proof.
  split.
  - intros name Hin Hnone. unfold GovernanceLogEntry_new.
    apply fails_to_result.
    repeat (apply elem_of_cons in Hin as [->|Hin];
            [ repeat first [ apply fails_vap_r; apply field_missing; assumption
                           | apply fails_vap_l ] | ]).
    inversion Hin.
  - intros c a H1 H2 N1 N2 N3. unfold GovernanceLogEntry_new.
    rewrite (field_present _ "component" _ _ _ c H1 eq_refl).
    rewrite (field_present _ "action" _ _ _ a H2 eq_refl).
    rewrite (field_absent _ "timestamp" _ _ N1), (field_absent _ "success" _ _ N2),
      (field_absent _ "details" _ _ N3).
    reflexivity.
Qed.

Lemma GovernanceLogEntry_required_and_defaults_witness :
  GovernanceLogEntry_new Samples.clock Samples.entry_required_only
  = Ok {| log_timestamp := Samples.clock; log_component := "Auth";
          log_action := "User login";
          log_success := true; log_details := None |}.
Proof.
  apply (proj2 (GovernanceLogEntry_required_and_defaults Samples.clock
                  Samples.entry_required_only) "Auth" "User login");
    reflexivity.
Defined.

(** [model_dump] loses nothing: for each of the three schemas, two records
    with the same dump are the same record. *)
Theorem model_dump_injective :
  (forall r1 r2 : AuditEventSchema,
      AuditEventSchema_model_dump r1 = AuditEventSchema_model_dump r2 ->
      r1 = r2)
  /\ (forall r1 r2 : CostTrackingSchema,
        CostTrackingSchema_model_dump r1 = CostTrackingSchema_model_dump r2 ->
        r1 = r2)
  /\ (forall r1 r2 : GovernanceLogEntry,
        GovernanceLogEntry_model_dump r1 = GovernanceLogEntry_model_dump r2 ->
        r1 = r2).
Proof.
  split; [|split].
  - intros [a1 a2 a3 a4 a5 a6 a7 a8 a9 a10] [b1 b2 b3 b4 b5 b6 b7 b8 b9 b10] H.
    assert (E1 := f_equal (fun m : gmap string pyval => m !! "event_id") H).
    assert (E2 := f_equal (fun m : gmap string pyval => m !! "event_type") H).
    assert (E3 := f_equal (fun m : gmap string pyval => m !! "timestamp") H).
    assert (E4 := f_equal (fun m : gmap string pyval => m !! "component") H).
    assert (E5 := f_equal (fun m : gmap string pyval => m !! "action") H).
    assert (E6 := f_equal (fun m : gmap string pyval => m !! "user_id") H).
    assert (E7 := f_equal (fun m : gmap string pyval => m !! "session_id") H).
    assert (E8 := f_equal (fun m : gmap string pyval => m !! "success") H).
    assert (E9 := f_equal (fun m : gmap string pyval => m !! "details") H).
    assert (E10 := f_equal (fun m : gmap string pyval => m !! "metadata") H).
    clear H.
    change (Some (PStr a1) = Some (PStr b1)) in E1.
    change (Some (PStr a2) = Some (PStr b2)) in E2.
    change (Some (PDatetime a3) = Some (PDatetime b3)) in E3.
    change (Some (PStr a4) = Some (PStr b4)) in E4.
    change (Some (PStr a5) = Some (PStr b5)) in E5.
    change (Some (of_option PStr a6) = Some (of_option PStr b6)) in E6.
    change (Some (of_option PStr a7) = Some (of_option PStr b7)) in E7.
    change (Some (PBool a8) = Some (PBool b8)) in E8.
    change (Some (of_option PDict a9) = Some (of_option PDict b9)) in E9.
    change (Some (of_option PDict a10) = Some (of_option PDict b10)) in E10.
    injection E1 as ->. injection E2 as ->. injection E3 as ->.
    injection E4 as ->. injection E5 as ->. injection E8 as ->.
    injection E6 as E6. injection E7 as E7.
    injection E9 as E9. injection E10 as E10.
    apply of_option_PStr_inj in E6, E7. apply of_option_PDict_inj in E9, E10.
    now subst.
  - intros [a1 a2 a3 a4 a5 a6 a7 a8 a9] [b1 b2 b3 b4 b5 b6 b7 b8 b9] H.
    assert (E1 := f_equal (fun m : gmap string pyval => m !! "event_id") H).
    assert (E2 := f_equal (fun m : gmap string pyval => m !! "timestamp") H).
    assert (E3 := f_equal (fun m : gmap string pyval => m !! "model") H).
    assert (E4 := f_equal (fun m : gmap string pyval => m !! "input_tokens") H).
    assert (E5 := f_equal (fun m : gmap string pyval => m !! "output_tokens") H).
    assert (E6 := f_equal (fun m : gmap string pyval => m !! "total_tokens") H).
    assert (E7 := f_equal (fun m : gmap string pyval => m !! "cost_usd") H).
    assert (E8 := f_equal (fun m : gmap string pyval => m !! "component") H).
    assert (E9 := f_equal (fun m : gmap string pyval => m !! "session_id") H).
    clear H.
    change (Some (PStr a1) = Some (PStr b1)) in E1.
    change (Some (PDatetime a2) = Some (PDatetime b2)) in E2.
    change (Some (PStr a3) = Some (PStr b3)) in E3.
    change (Some (PInt a4) = Some (PInt b4)) in E4.
    change (Some (PInt a5) = Some (PInt b5)) in E5.
    change (Some (PInt a6) = Some (PInt b6)) in E6.
    change (Some (PFloat a7) = Some (PFloat b7)) in E7.
    change (Some (of_option PStr a8) = Some (of_option PStr b8)) in E8.
    change (Some (of_option PStr a9) = Some (of_option PStr b9)) in E9.
    injection E1 as ->. injection E2 as ->. injection E3 as ->.
    injection E4 as ->. injection E5 as ->. injection E6 as ->.
    injection E7 as ->. injection E8 as E8. injection E9 as E9.
    apply of_option_PStr_inj in E8, E9. now subst.
  - intros [a1 a2 a3 a4 a5] [b1 b2 b3 b4 b5] H.
    assert (E1 := f_equal (fun m : gmap string pyval => m !! "timestamp") H).
    assert (E2 := f_equal (fun m : gmap string pyval => m !! "component") H).
    assert (E3 := f_equal (fun m : gmap string pyval => m !! "action") H).
    assert (E4 := f_equal (fun m : gmap string pyval => m !! "success") H).
    assert (E5 := f_equal (fun m : gmap string pyval => m !! "details") H).
    clear H.
    change (Some (PDatetime a1) = Some (PDatetime b1)) in E1.
    change (Some (PStr a2) = Some (PStr b2)) in E2.
    change (Some (PStr a3) = Some (PStr b3)) in E3.
    change (Some (PBool a4) = Some (PBool b4)) in E4.
    change (Some (of_option PStr a5) = Some (of_option PStr b5)) in E5.
    injection E1 as ->. injection E2 as ->. injection E3 as ->.
    injection E4 as ->. injection E5 as E5.
    apply of_option_PStr_inj in E5. now subst.
Qed.

(** Which records exist: every log entry is constructed from its own dump,
    and an audit event is one that construction returns exactly when its
    [event_type] is the value of a member. *)
Theorem constructible_records :
  (forall now (r : GovernanceLogEntry),
      GovernanceLogEntry_new now (GovernanceLogEntry_model_dump r) = Ok r)
  /\ (forall r : AuditEventSchema,
        (exists e, event_type r = AuditEventType.value e)
        <-> (exists now kwargs, AuditEventSchema_new now kwargs = Ok r)).
Proof.
  split; [apply GovernanceLogEntry_of_dump|].
  intros r. split.
  - intros [e He]. exists (timestamp r), (AuditEventSchema_model_dump r).
    now apply (AuditEventSchema_of_dump _ r e).
  - intros (now & kwargs & H). unfold AuditEventSchema_new in H.
    invert_new H. simpl.
    match goal with
    | Hf : field _ "event_type" _ _ = inr _ |- _ =>
        apply field_required_inv in Hf as (v & _ & Hf);
        apply enum_value_validator_inv in Hf as [e ->]
    end.
    eauto.
Qed.

(** A cost record of well-typed arguments (the cost a number) that violates
    bounds is rejected with one line for every bound violated, in the order
    of the fields, and nothing else. *)
Theorem CostTrackingSchema_reports_every_bound now (kwargs : gmap string pyval)
    eid m it ot tt c :
  kwargs !! "event_id" = Some (PStr eid) ->
  kwargs !! "model" = Some (PStr m) ->
  kwargs !! "input_tokens" = Some (PInt it) ->
  kwargs !! "output_tokens" = Some (PInt ot) ->
  kwargs !! "total_tokens" = Some (PInt tt) ->
  kwargs !! "cost_usd" = Some (PFloat c) ->
  c <> NaN ->
  absent_or kwargs "timestamp" TDatetime ->
  absent_or kwargs "component" (TOptional TStr) ->
  absent_or kwargs "session_id" (TOptional TStr) ->
  Spec.bound_errors it ot tt c <> [] ->
  CostTrackingSchema_new now kwargs
  = Raise (ValidationError (Spec.bound_errors it ot tt c)).
Proof.
  intros H1 H2 H3 H4 H5 H6 Hnan T1 T2 T3.
  destruct (CostTrackingSchema_new_typed now kwargs eid m it ot tt c)
    as (ts & comp & sess & E); try assumption.
  rewrite E. unfold Spec.bound_errors. rewrite (flt_zero c Hnan).
  rewrite !Z.ltb_antisym.
  destruct (0 <=? it), (0 <=? ot), (0 <=? tt), (fle (float_lit 0 0) c);
    simpl; intros Hne; try reflexivity. now destruct Hne.
Qed.

Lemma CostTrackingSchema_reports_every_bound_witness :
  CostTrackingSchema_new Samples.clock Samples.two_violations
  = Raise (ValidationError
             [("input_tokens", greater_than_equal);
              ("cost_usd", greater_than_equal)]).
Proof.
  apply (CostTrackingSchema_reports_every_bound Samples.clock
           Samples.two_violations "EVT_BAD" "gpt-4o-mini" (-100) 500 400
           (float_lit (-1) (-3)));
    try reflexivity; try absent; vm_compute; discriminate.
Defined.

(** ** The governance panel, further *)

Section Panel.

Implicit Types st : gmap string (list GovernanceLogEntry).

Lemma init_governance_state_default st :
  default [] (init_governance_state st !! "governance_logs")
  = default [] (st !! "governance_logs").
Proof. now rewrite init_governance_state_logs. Qed.

Lemma init_governance_state_present st l :
  st !! "governance_logs" = Some l -> init_governance_state st = st.
Proof. intros H. unfold init_governance_state. now rewrite H. Qed.

Lemma render_log_entry_one now (e : GovernanceLogEntry) :
  length (_render_log_entry now e) = 1%nat.
Proof. reflexivity. Qed.

Lemma flat_map_length_one {A B : Type} (f : A -> list B) (l : list A) :
  (forall a, length (f a) = 1%nat) -> length (flat_map f l) = length l.
Proof.
  intros H. induction l as [|a l IH]; simpl; [reflexivity|].
  rewrite length_app, H, IH. reflexivity.
Qed.

End Panel.

(** [init_governance_state] only ever adds the empty sequence: it leaves a
    session that has one untouched, doing it twice is doing it once, and
    calling it before [add_governance_log] or [render_governance_panel]
    changes nothing of what they do. *)
Theorem init_governance_state_absorbed
    (st : gmap string (list GovernanceLogEntry)) :
  (forall l, st !! "governance_logs" = Some l -> init_governance_state st = st)
  /\ init_governance_state (init_governance_state st) = init_governance_state st
  /\ (forall now c a s d,
        add_governance_log now c a s d (init_governance_state st)
        = add_governance_log now c a s d st)
  /\ (forall now title,
        render_governance_panel now title (init_governance_state st)
        = render_governance_panel now title st).
Proof.
  split; [apply init_governance_state_present|].
  split; [apply init_governance_state_idem|]. split.
  - intros now c a s d. rewrite !add_governance_log_eq.
    now rewrite init_governance_state_idem, init_governance_state_default.
  - intros now title. rewrite !render_governance_panel_eq.
    now rewrite init_governance_state_idem, init_governance_state_default.
Qed.

(** Drawing the panel reads the log and does not change it: the sequence
    and every other slot of the session are as before, and drawing again
    gives the same panel. *)
Theorem render_governance_panel_read_only now title
    (st : gmap string (list GovernanceLogEntry)) :
  let st' := (render_governance_panel now title st).1 in
  default [] (st' !! "governance_logs") = default [] (st !! "governance_logs")
  /\ (forall k, k <> "governance_logs" -> st' !! k = st !! k)
  /\ render_governance_panel now title st'
     = render_governance_panel now title st.
Proof.
  rewrite render_governance_panel_eq. cbn [fst]. split; [|split].
  - apply init_governance_state_default.
  - intros k Hk. now apply init_governance_state_other.
  - rewrite !render_governance_panel_eq.
    now rewrite init_governance_state_idem, init_governance_state_default.
Qed.

(** The panel shows one block for every entry of the log under a caption
    that states their number; for an empty log, or none, it shows the
    caption that nothing is recorded and no block. *)
Theorem render_governance_panel_counts now title
    (st : gmap string (list GovernanceLogEntry)) :
  let logs := default [] (st !! "governance_logs") in
  (logs = [] ->
     (render_governance_panel now title st).2
     = [ Subheader title; Caption "No governance events recorded yet." ])
  /\ (logs <> [] ->
        exists blocks,
          (render_governance_panel now title st).2
          = [ Subheader title;
              Caption ("Showing " ++ pretty (length logs) ++ " event(s)");
              Container blocks ]
          /\ length blocks = length logs).
Proof.
  rewrite render_governance_panel_eq. cbn [snd].
  destruct (default [] (st !! "governance_logs")) as [|e l] eqn:E; split.
  - reflexivity.
  - intros H. now destruct H.
  - discriminate.
  - intros _. eexists. split; [reflexivity|].
    rewrite flat_map_length_one by apply render_log_entry_one.
    apply length_reverse.
Qed.
